(** * atb-fetch: the fetch-and-extract pipeline of [atb-fetch.py]

    A shallow embedding of [md5_ok], [download_with_retry],
    [extract_selected] and of the download/extract part of [main], over an
    explicit world (file system, scripted network, heap of Python [set]
    objects, trace of network requests and sleeps), followed by the
    properties of the pipeline. *)

From Stdlib Require Import ZArith Lia Ascii String List Bool Sorted.
From stdpp Require Import base option list strings gmap sets.

Local Open Scope string_scope.
Local Open Scope Z_scope.

(** ** Strings *)

(** [str.lower] on the ASCII range. *)
Definition lower_ascii (c : ascii) : ascii :=
  let n := N_of_ascii c in
  if ((65 <=? n) && (n <=? 90))%N then ascii_of_N (n + 32) else c.

Fixpoint lower (s : string) : string :=
  match s with
  | EmptyString => EmptyString
  | String c s' => String (lower_ascii c) (lower s')
  end.

(** Case-insensitive comparison of two strings. *)
Definition eq_nocase (a b : string) : bool := String.eqb (lower a) (lower b).

(** Lowercase hexadecimal rendering, as [hexdigest] produces it. *)
Definition hex_digit (n : N) : ascii :=
  if (n <? 10)%N then ascii_of_N (48 + n) else ascii_of_N (87 + n).

Definition hex_of_ascii (c : ascii) : string :=
  let n := N_of_ascii c in
  String (hex_digit (n / 16)) (String (hex_digit (n mod 16)) EmptyString).

Fixpoint hex_of_bytes (s : string) : string :=
  match s with
  | EmptyString => EmptyString
  | String c s' => hex_of_ascii c ++ hex_of_bytes s'
  end.

(** [s.split(sep)] for a one-character separator. *)
Fixpoint split_on (sep : ascii) (s : string) : list string :=
  match s with
  | EmptyString => [EmptyString]
  | String c s' =>
      if Ascii.eqb c sep then EmptyString :: split_on sep s'
      else match split_on sep s' with
           | [] => [String c EmptyString]
           | w :: ws => String c w :: ws
           end
  end.

Fixpoint ends_with (suf s : string) : bool :=
  String.eqb suf s ||
  match s with
  | EmptyString => false
  | String _ s' => ends_with suf s'
  end.

(** Position of the last ["."] of a name, if any ([name.rfind('.')]). *)
Fixpoint rfind_dot (s : string) : option nat :=
  match s with
  | EmptyString => None
  | String c s' =>
      match rfind_dot s' with
      | Some i => Some (S i)
      | None => if Ascii.eqb c "." then Some O else None
      end
  end.

Fixpoint drop_str (n : nat) (s : string) : string :=
  match n, s with
  | O, _ => s
  | S n', String _ s' => drop_str n' s'
  | S _, EmptyString => EmptyString
  end.

(** [PurePath.suffix] of a final component: the part from the last dot on,
    unless that dot is the first or the last character. *)
Definition name_suffix (name : string) : string :=
  match rfind_dot name with
  | Some i =>
      if (0 <? i)%nat && (i <? String.length name - 1)%nat
      then drop_str i name else ""
  | None => ""
  end.

(** ** Paths

    A path is the list of its components below the root, which is also the
    working directory; the empty list is the directory itself. *)

Abbreviation path := (list string).

Definition is_sep_free (s : string) : bool :=
  negb (String.eqb s "") && negb (String.eqb s ".").

(** Components of a path string: empty components and ["."] are dropped. *)
Definition path_parts (s : string) : list string :=
  List.filter is_sep_free (split_on "/" s).

Definition is_absolute (s : string) : bool :=
  match s with
  | String c _ => Ascii.eqb c "/"
  | EmptyString => false
  end.

(** [Path(s).parts]: the components, preceded by the anchor ["/"] when the
    string is absolute. *)
Definition py_parts (s : string) : list string :=
  if is_absolute s then "/" :: path_parts s else path_parts s.

(** The name of the path built from [parts]: the last component, empty
    for a bare anchor. *)
Definition parts_name (parts : list string) : string :=
  match List.rev parts with
  | [] => ""
  | n :: _ => if String.eqb n "/" then "" else n
  end.

(** [dir / s]: an absolute [s] replaces [dir]. *)
Definition joinpath (dir : path) (s : string) : path :=
  if is_absolute s then path_parts s else (dir ++ path_parts s)%list.

(** [p.parent]. *)
Definition parent (p : path) : path := removelast p.

(** [p.name]. *)
Definition path_name (p : path) : string := List.last p "".

(** [p.suffix]. *)
Definition path_suffix (p : path) : string := name_suffix (path_name p).

(** The non-empty prefixes of a path, shortest first, the path included. *)
Fixpoint prefixes (p : path) : list path :=
  match p with
  | [] => []
  | x :: xs => [x] :: List.map (cons x) (prefixes xs)
  end.

(** Python slice [l[n:]] for an integer [n] of either sign. *)
Definition py_slice_from {A} (n : Z) (l : list A) : list A :=
  if 0 <=? n then List.skipn (Z.to_nat n) l
  else List.skipn (Z.to_nat (Z.of_nat (List.length l) + n)) l.

(** ** Exceptions and results *)

Inductive exn : Set :=
| FileExistsError
| FileNotFoundError
| IsADirectoryError
| NotADirectoryError
| URLError
| ValueError (msg : string)
| ReadError.

Inductive result (A : Type) : Type :=
| Ok (a : A)
| Raise (e : exn).
Arguments Ok {A} a.
Arguments Raise {A} e.

(** ** The world *)

Inductive node : Set :=
| File (data : string)
| Dir.

Inductive event : Set :=
| Request (url : string)
| Sleep (seconds : Z).

(** [net] scripts, per URL, the outcomes of the coming requests: [Some body]
    for a response, [None] for a connection error or a timeout; a URL whose
    script is used up fails. [heap] holds the Python [set] objects. *)
Record world : Type := World {
  files : gmap path node;
  net : gmap string (list (option string));
  heap : gmap nat (gset string);
  trace : list event
}.

Definition with_files (fs : gmap path node) (w : world) : world :=
  World fs (net w) (heap w) (trace w).
Definition with_net (n : gmap string (list (option string))) (w : world) : world :=
  World (files w) n (heap w) (trace w).
Definition with_heap (h : gmap nat (gset string)) (w : world) : world :=
  World (files w) (net w) h (trace w).
Definition log (e : event) (w : world) : world :=
  World (files w) (net w) (heap w) (trace w ++ [e])%list.

(** ** The monad of world-passing computations that may raise *)

Definition M (A : Type) : Type := world -> result A * world.

Definition ret {A} (a : A) : M A := fun w => (Ok a, w).
Definition raise {A} (e : exn) : M A := fun w => (Raise e, w).
Definition bind {A B} (m : M A) (k : A -> M B) : M B :=
  fun w => match m w with
           | (Ok a, w') => k a w'
           | (Raise e, w') => (Raise e, w')
           end.
(** [try: m except Exception as e: h e]. *)
Definition try_except {A} (m : M A) (h : exn -> M A) : M A :=
  fun w => match m w with
           | (Ok a, w') => (Ok a, w')
           | (Raise e, w') => h e w'
           end.

Notation "'let*' x ':=' m 'in' k" := (bind m (fun x => k))
  (at level 10, x name, m at level 100, k at level 200).
Notation "'do' m 'then' k" := (bind m (fun _ => k))
  (at level 10, m at level 100, k at level 200).

(** ** File system primitives *)

Definition dir_at (fs : gmap path node) (q : path) : bool :=
  match fs !! q with
  | Some Dir => true
  | _ => false
  end.

(** What a path leads to: every proper ancestor has to be a directory. *)
Definition resolve (fs : gmap path node) (p : path) : option node :=
  match p with
  | [] => Some Dir
  | _ => if forallb (dir_at fs) (prefixes (parent p)) then fs !! p else None
  end.

(** [p.exists()]. *)
Definition path_exists (p : path) : M bool :=
  fun w => (Ok (match resolve (files w) p with Some _ => true | None => false end), w).

(** [open(p, "rb")] read to the end, in chunks. *)
Definition read_file (p : path) : M string :=
  fun w => match resolve (files w) p with
           | Some (File d) => (Ok d, w)
           | Some Dir => (Raise IsADirectoryError, w)
           | None => (Raise FileNotFoundError, w)
           end.

(** [open(p, "wb")], the data written, the file closed. *)
Definition write_file (p : path) (data : string) : M unit :=
  fun w => match resolve (files w) (parent p), resolve (files w) p with
           | Some Dir, Some Dir => (Raise IsADirectoryError, w)
           | Some Dir, _ => (Ok tt, with_files (<[p := File data]> (files w)) w)
           | Some (File _), _ => (Raise NotADirectoryError, w)
           | None, _ => (Raise FileNotFoundError, w)
           end.

(** [src.replace(dst)] for a regular file [src]; the program only renames
    the file it has just written. *)
Definition replace_file (src dst : path) : M unit :=
  fun w => match resolve (files w) src with
           | Some (File d) =>
               match resolve (files w) (parent dst), resolve (files w) dst with
               | Some Dir, Some Dir => (Raise IsADirectoryError, w)
               | Some Dir, _ =>
                   (Ok tt, with_files (<[dst := File d]> (delete src (files w))) w)
               | Some (File _), _ => (Raise NotADirectoryError, w)
               | None, _ => (Raise FileNotFoundError, w)
               end
           | Some Dir => (Raise NotADirectoryError, w)
           | None => (Raise FileNotFoundError, w)
           end.

(** [p.unlink()]. *)
Definition unlink (p : path) : M unit :=
  fun w => match resolve (files w) p with
           | Some (File _) => (Ok tt, with_files (delete p (files w)) w)
           | Some Dir => (Raise IsADirectoryError, w)
           | None => (Raise FileNotFoundError, w)
           end.

Fixpoint mkdir_chain (qs : list path) (fs : gmap path node)
  : result (gmap path node) :=
  match qs with
  | [] => Ok fs
  | q :: qs' =>
      match fs !! q with
      | Some (File _) => Raise FileExistsError
      | _ => mkdir_chain qs' (<[q := Dir]> fs)
      end
  end.

(** [p.mkdir(parents=True, exist_ok=True)]: every missing directory on the
    way is created; a regular file on the way is an error. *)
Definition mkdir_parents (p : path) : M unit :=
  fun w => match mkdir_chain (prefixes p) (files w) with
           | Ok fs => (Ok tt, with_files fs w)
           | Raise e => (Raise e, w)
           end.

(** The temporary sibling of a destination. *)
Definition part_path (out : path) : path :=
  (parent out ++ [(path_name out ++ ".part")%string])%list.

(** [p.with_suffix(p.suffix + ".part")]: the name with [".part"] appended;
    a path without a name is refused. *)
Definition with_part_suffix (p : path) : M path :=
  match p with
  | [] => raise (ValueError "empty name")
  | _ => ret (part_path p)
  end.

(** ** Network and clock *)

(** [urlopen(url, timeout=120)] and [r.read()]. *)
Definition urlopen (url : string) : M string :=
  fun w => let w1 := log (Request url) w in
           match net w !! url with
           | Some (Some body :: rest) => (Ok body, with_net (<[url := rest]> (net w)) w1)
           | Some (None :: rest) => (Raise URLError, with_net (<[url := rest]> (net w)) w1)
           | _ => (Raise URLError, w1)
           end.

(** [time.sleep(s)]. *)
Definition sleep (s : Z) : M unit := fun w => (Ok tt, log (Sleep s) w).

(** ** Heap of [set] objects *)

(** [set(it)]: a new object. *)
Definition new_set (s : gset string) : M nat :=
  fun w => let l := fresh (dom (heap w)) in
           (Ok l, with_heap (<[l := s]> (heap w)) w).

Definition read_set (l : nat) : M (gset string) :=
  fun w => (Ok (default ∅ (heap w !! l)), w).

(** [s.add(x)]. *)
Definition set_add (l : nat) (x : string) : M unit :=
  fun w => (Ok tt, with_heap (<[l := {[x]} ∪ default ∅ (heap w !! l)]> (heap w)) w).

(** [s.remove(x)]; the program only removes an element it has found. *)
Definition set_remove (l : nat) (x : string) : M unit :=
  fun w => (Ok tt, with_heap (<[l := default ∅ (heap w !! l) ∖ {[x]}]> (heap w)) w).

(** ** Archives *)

Inductive member_kind : Set :=
| RegularFile
| DirectoryEntry
| LinkEntry
| OtherEntry.

Record member : Set := Member {
  name : string;
  kind : member_kind;
  payload : string
}.

(** [member.isreg()]. *)
Definition isreg (m : member) : bool :=
  match kind m with
  | RegularFile => true
  | _ => false
  end.

(** [tf.extractfile(member)]: a reader for regular files and links, [None]
    for every other member. *)
Definition extractfile (m : member) : option string :=
  match kind m with
  | RegularFile | LinkEntry => Some (payload m)
  | _ => None
  end.

(** ** Rows of the filtered metadata table *)

Record row : Set := Row {
  tar_xz : string;
  tar_xz_url : string;
  filename_in_tar_xz : string;
  tar_xz_md5 : string
}.

(** The key of a row in the plan. *)
Definition row_key (f : row) : string * string := (tar_xz f, tar_xz_url f).

(** The dict [plan], in insertion order; the values are [set] objects. *)
Abbreviation plan_t := (list ((string * string) * nat)).

(** ** Observing a trace *)

(** The number of network requests among some events. *)
Fixpoint requests (evs : list event) : nat :=
  match evs with
  | [] => O
  | Request _ :: evs' => S (requests evs')
  | Sleep _ :: evs' => requests evs'
  end.

(** The delays slept among some events, in order. *)
Fixpoint sleeps (evs : list event) : list Z :=
  match evs with
  | [] => []
  | Request _ :: evs' => sleeps evs'
  | Sleep s :: evs' => s :: sleeps evs'
  end.

(** The delays [2 ** i] for [k] consecutive indices from [i] on. *)
Definition backoff (i : Z) (k : nat) : list Z :=
  List.map (fun j => 2 ^ (i + Z.of_nat j)) (seq 0 k).

Section Pipeline.

(** The raw 16-byte MD5 digest of a byte string. *)
Variable md5_digest : string -> string.

(** The data model of [tarfile]: the members the bytes of an archive decode
    to, in stream order, when opened in mode ["r:xz"] ([true]) or ["r:*"]
    ([false]); [None] when [tarfile.open] refuses the bytes. *)
Variable tar_decode : bool -> string -> option (list member).

(** [hashlib.md5(data).hexdigest()]. *)
Definition hexdigest (data : string) : string := hex_of_bytes (md5_digest data).

(** ** [md5_ok] *)

Definition truthy (expected : option string) : bool :=
  match expected with
  | None => false
  | Some e => negb (String.eqb e "")
  end.

Definition md5_ok (p : path) (expected : option string) : M bool :=
  match expected with
  | None => ret false
  | Some e =>
      if String.eqb e "" then ret false
      else
        let* ex := path_exists p in
        if negb ex then ret false
        else
          let* data := read_file p in
          ret (String.eqb (hexdigest data) (lower e))
  end.

(** ** [download_with_retry] *)

(** The body of the [try] of one iteration. *)
Definition attempt (url : string) (out : path) (expected_md5 : option string)
  : M string :=
  let* cached := (if truthy expected_md5 then md5_ok out expected_md5
                  else ret false) in
  if cached then ret "cached-ok"
  else
    let* data := urlopen url in
    let* tmp := with_part_suffix out in
    do write_file tmp data then
    do replace_file tmp out then
    let* bad := (if truthy expected_md5
                 then let* good := md5_ok out expected_md5 in ret (negb good)
                 else ret false) in
    if bad then raise (ValueError "md5 mismatch") else ret "downloaded".

(** [for i in range(attempts)], with [n] iterations left at index [i]. *)
Fixpoint retry_loop (n : nat) (i attempts : Z) (url : string) (out : path)
  (expected_md5 : option string) : M string :=
  match n with
  | O => ret "failed"
  | S n' =>
      try_except (attempt url out expected_md5)
        (fun e =>
           if i =? attempts - 1 then raise e
           else do sleep (2 ^ i) then
                retry_loop n' (i + 1) attempts url out expected_md5)
  end.

Definition download_with_retry (url : string) (out : path)
  (expected_md5 : option string) (attempts : Z) : M string :=
  do mkdir_parents (parent out) then
  retry_loop (Z.to_nat attempts) 0 attempts url out expected_md5.

(** *** What the properties of the fetcher are stated with *)

(** The destination holds a regular file that passes the check against
    the expected checksum. *)
Definition verified (expected_md5 : option string) (out : path) (w : world)
  : Prop :=
  exists e d, expected_md5 = Some e /\ e ≠ "" /\
    resolve (files w) out = Some (File d) /\
    eq_nocase (hexdigest d) e = true.

(** The ways one attempt can end, by the step it stops at. *)
Inductive attempt_outcome (url : string) (out : path)
  (expected_md5 : option string) (w : world) : result string -> world -> Prop :=
| AtCached :
    verified expected_md5 out w ->
    attempt_outcome url out expected_md5 w (Ok "cached-ok") w
| AtCheckRaised e :
    attempt_outcome url out expected_md5 w (Raise e) w
| AtNothingWritten e w1 :
    files w1 = files w -> heap w1 = heap w ->
    trace w1 = (trace w ++ [Request url])%list ->
    attempt_outcome url out expected_md5 w (Raise e) w1
| AtNotRenamed e data w1 w2 :
    files w1 = files w -> heap w1 = heap w ->
    trace w1 = (trace w ++ [Request url])%list ->
    (truthy expected_md5 = true -> resolve (files w) out ≠ Some Dir) ->
    out ≠ [] ->
    write_file (part_path out) data w1 = (Ok tt, w2) ->
    replace_file (part_path out) out w2 = (Raise e, w2) ->
    attempt_outcome url out expected_md5 w (Raise e) w2
| AtRenamed r data w1 w2 w3 :
    files w1 = files w -> heap w1 = heap w ->
    trace w1 = (trace w ++ [Request url])%list ->
    out ≠ [] ->
    write_file (part_path out) data w1 = (Ok tt, w2) ->
    replace_file (part_path out) out w2 = (Ok tt, w3) ->
    (r = Ok "downloaded" \/ exists e, r = Raise e) ->
    (r = Ok "downloaded" -> truthy expected_md5 = true ->
     verified expected_md5 out w3) ->
    attempt_outcome url out expected_md5 w r w3.

(** The invariant of the retry loop about the temporary file: it is
    absent unless the destination is a directory. *)
Definition part_inv (out : path) (w : world) : Prop :=
  resolve (files w) (parent out) = Some Dir /\
  (files w !! part_path out = None \/ resolve (files w) out = Some Dir).

(** ** [extract_selected] *)

(** [tarfile.open(tar_path, mode=mode)]. *)
Definition open_tar (tar_path : path) : M (list member) :=
  let mode_xz := ends_with "xz" (path_suffix tar_path) in
  let* data := read_file tar_path in
  match tar_decode mode_xz data with
  | Some ms => ret ms
  | None => raise ReadError
  end.

(** The flattened output name of a member. *)
Definition target_name (member_name : string) (strip_components : Z) : string :=
  match py_slice_from strip_components (py_parts member_name) with
  | [] => parts_name (py_parts member_name)
  | parts => parts_name parts
  end.

(** [for member in tf], on the object [missing] of the heap. *)
Fixpoint extract_loop (ms : list member) (missing : nat) (outdir : path)
  (strip_components : Z) : M unit :=
  match ms with
  | [] => ret tt
  | m :: rest =>
      if negb (isreg m) then extract_loop rest missing outdir strip_components
      else
        let* s := read_set missing in
        let after :=
          let* s' := read_set missing in
          if bool_decide (s' = ∅) then ret tt
          else extract_loop rest missing outdir strip_components in
        if bool_decide (name m ∈ s) then
          let out_path := joinpath outdir (target_name (name m) strip_components) in
          match extractfile m with
          | None => extract_loop rest missing outdir strip_components
          | Some data =>
              do write_file out_path data then
              do set_remove missing (name m) then
              after
          end
        else after
  end.

(** The arguments and the result are references to [set] objects. *)
Definition extract_selected (tar_path : path) (members_to_get : nat)
  (outdir : path) (strip_components : Z) : M nat :=
  do mkdir_parents outdir then
  let* wanted := read_set members_to_get in
  let* missing := new_set wanted in
  let* ms := open_tar tar_path in
  do extract_loop ms missing outdir strip_components then
  ret missing.

(** ** The download and extraction part of [main] *)

Fixpoint plan_get (key : string * string) (plan : plan_t) : option nat :=
  match plan with
  | [] => None
  | (k, l) :: rest => if bool_decide (k = key) then Some l else plan_get key rest
  end.

(** [plan.setdefault(key, set())]: the argument [set()] is built first. *)
Definition setdefault (key : string * string) (plan : plan_t) : M (nat * plan_t) :=
  let* fresh_set := new_set ∅ in
  match plan_get key plan with
  | Some l => ret (l, plan)
  | None => ret (fresh_set, (plan ++ [(key, fresh_set)])%list)
  end.

(** The loop [for f in rows] that fills [plan] and [md5_map]; [has_md5]
    says whether the table has a column [tar_xz_md5]. *)
Fixpoint build_plan (has_md5 : bool) (rows : list row) (plan : plan_t)
  (md5_map : gmap string string) : M (plan_t * gmap string string) :=
  match rows with
  | [] => ret (plan, md5_map)
  | f :: rest =>
      let key := (tar_xz f, tar_xz_url f) in
      let* lp := setdefault key plan in
      do set_add (fst lp) (filename_in_tar_xz f) then
      let md5_map' :=
        if has_md5 && negb (String.eqb (tar_xz_md5 f) "")
        then <[tar_xz f := tar_xz_md5 f]> md5_map else md5_map in
      build_plan has_md5 rest (snd lp) md5_map'
  end.









End Pipeline.

(** ** What the further properties are stated with *)

(** Whether a character occurs in a string. *)
Fixpoint has_char (c : ascii) (s : string) : bool :=
  match s with
  | EmptyString => false
  | String a s' => Ascii.eqb a c || has_char c s'
  end.

(** The names of the regular members of an archive. *)
Fixpoint regular_names (ms : list member) : gset string :=
  match ms with
  | [] => ∅
  | m :: rest =>
      if isreg m then {[ name m ]} ∪ regular_names rest else regular_names rest
  end.

(** The output path of a member. *)
Definition output_path (outdir : path) (strip_components : Z)
  (member_name : string) : path :=
  joinpath outdir (target_name member_name strip_components).

(** The world after a wanted member has been written and struck off. *)
Definition extracted (m : member) (missing : nat) (outdir : path)
  (strip_components : Z) (s : gset string) (w : world) : world :=
  with_heap (<[missing := s ∖ {[ name m ]}]> (heap w))
    (with_files (<[output_path outdir strip_components (name m)
                   := File (payload m)]> (files w)) w).

(** A script on which no request is answered. *)
Definition never_answers (script : option (list (option string))) : Prop :=
  match script with
  | None => True
  | Some l => Forall (fun x => x = None) l
  end.

(** The member paths of the rows with a given key. *)
Fixpoint members_of (key : string * string) (rows : list row) : gset string :=
  match rows with
  | [] => ∅
  | f :: rest =>
      (if bool_decide (row_key f = key) then {[ filename_in_tar_xz f ]} else ∅)
      ∪ members_of key rest
  end.

(** What the plan and the heap keep while the plan is built: keys and
    set objects are not repeated, and the object of a key holds the set
    [S key]. *)
Definition plan_inv (plan : plan_t) (h : gmap nat (gset string))
  (S : string * string -> gset string) : Prop :=
  NoDup (List.map fst plan) /\ NoDup (List.map snd plan) /\
  (forall k l, In (k, l) plan -> h !! l = Some (S k)) /\
  (forall k, ~ In k (List.map fst plan) -> S k = ∅).

(** The dict [md5_map] after the rows, as a function of the rows alone. *)
Fixpoint md5_fold (has_md5 : bool) (rows : list row) (m : gmap string string)
  : gmap string string :=
  match rows with
  | [] => m
  | f :: rest =>
      md5_fold has_md5 rest
        (if has_md5 && negb (String.eqb (tar_xz_md5 f) "")
         then <[tar_xz f := tar_xz_md5 f]> m else m)
  end.

(** ** The metadata table *)

(** The two magic bytes [1f 8b]. *)
Definition gzip_magic : string :=
  String (ascii_of_nat 31) (String (ascii_of_nat 139) EmptyString).

(** [is_gzip]: [data[:2] == b"\x1f\x8b"]. *)
Definition is_gzip (data : string) : bool :=
  String.eqb (substring 0 2 data) gzip_magic.

Definition tab : ascii := "009"%char.
Definition newline : ascii := "010"%char.

(** [{name: i for i, name in enumerate(cols)}], from index [i] on. *)
Fixpoint build_colmap (cols : list string) (i : nat) (m : gmap string nat)
  : gmap string nat :=
  match cols with
  | [] => m
  | c :: cs => build_colmap cs (S i) (<[c := i]> m)
  end.

(** [colmap] of a header line. *)
Definition colmap_of (header : string) : gmap string nat :=
  build_colmap (split_on tab header) 0 ∅.

(** The list [vals] of a row: the fields of the species columns that the
    table has; [None] stands for the [IndexError] of a row that is too
    short. *)
Definition species_vals (colmap : gmap string nat) (fields : list string)
  : option (list string) :=
  match (match colmap !! "species_sylph" with
         | Some i => match fields !! i with
                     | Some v => Some [v]
                     | None => None
                     end
         | None => Some []
         end) with
  | None => None
  | Some vals =>
      match colmap !! "species_miniphy" with
      | Some i => match fields !! i with
                  | Some v => Some (vals ++ [v])%list
                  | None => None
                  end
      | None => Some vals
      end
  end.

(** ["\n".join(lines)]. *)
Fixpoint join_lines (lines : list string) : string :=
  match lines with
  | [] => EmptyString
  | [l] => l
  | l :: rest => (l ++ String newline (join_lines rest))%string
  end.

(** The text written by [--save-filtered]. *)
Definition filtered_body (header : string) (kept : list string) : string :=
  (join_lines (header :: kept) ++ String newline EmptyString)%string.

Section Filter.

(** [pattern.search(v)] finds a match. *)
Variable search : string -> bool.

(** Whether a row is kept, when it is long enough. *)
Definition row_matches (colmap : gmap string nat) (line : string) : bool :=
  match species_vals colmap (split_on tab line) with
  | Some vals => existsb search vals
  | None => false
  end.

(** The loop [for line in lines[1:]]; the result is [kept] and the lines
    printed as preview, [None] when a row raises [IndexError]. *)
Fixpoint filter_loop (colmap : gmap string nat) (lines kept : list string)
  (preview_left : Z) (printed : list string)
  : option (list string * list string) :=
  match lines with
  | [] => Some (kept, printed)
  | line :: rest =>
      match species_vals colmap (split_on tab line) with
      | None => None
      | Some vals =>
          if existsb search vals then
            if 0 <? preview_left
            then filter_loop colmap rest (kept ++ [line])%list
                   (preview_left - 1) (printed ++ [line])%list
            else filter_loop colmap rest (kept ++ [line])%list
                   preview_left printed
          else filter_loop colmap rest kept preview_left printed
      end
  end.

(** The filtering of a table with its header line [header] and the lines
    [body] after it, for [--preview n]. *)
Definition filter_table (header : string) (body : list string) (n : Z)
  : option (list string * list string) :=
  filter_loop (colmap_of header) body [] n [].

End Filter.

(** ** Sample inputs

    A stand-in digest (the sum of the bytes, as one byte), a stand-in
    archive format (the bytes ["TAR"] decode to two regular members) and a
    few worlds, on which the pipeline can be run. *)

Fixpoint byte_sum (s : string) : N :=
  match s with
  | EmptyString => 0%N
  | String c s' => ((N_of_ascii c + byte_sum s') mod 256)%N
  end.

Definition sum_digest (s : string) : string :=
  String (ascii_of_N (byte_sum s)) EmptyString.

Definition two_members (xz : bool) (data : string) : option (list member) :=
  if String.eqb data "TAR"
  then Some [Member "top/a.fa" RegularFile "AAA";
             Member "top/b.fa" RegularFile "BBB"]
  else None.

(** Nothing on disk; the URL ["uB"] answers once, every other URL fails. *)
Definition sample_world : world :=
  World ∅ {[ "uB" := [Some "TAR"] ]} ∅ [].

(** The archive directory exists, as [main] creates it. *)
Definition sample_world_tars : world :=
  World {[ ["out"] := Dir; ["out"; "_tars"] := Dir ]}
        {[ "uB" := [Some "TAR"] ]} ∅ [].

(** A regular file stands where a directory is needed. *)
Definition sample_world_blocked : world :=
  World {[ ["f"] := File "x" ]} {[ "uB" := [Some "TAR"] ]} ∅ [].

(** An archive on disk and a caller's set of two wanted members, one of
    them not in the archive. *)
Definition sample_world_archive : world :=
  World {[ ["t.tar"] := File "TAR" ]} ∅
        {[ 0%nat := ({[ "top/a.fa"; "top/zzz.fa" ]} : gset string) ]} [].



(** A line of a table, from its fields. *)
Fixpoint tab_join (fields : list string) : string :=
  match fields with
  | [] => EmptyString
  | [x] => x
  | x :: rest => (x ++ String tab (tab_join rest))%string
  end.

(** A small table with one species column, and a header without any. *)
Definition sample_header : string :=
  tab_join ["sample"; "species_sylph"; "tar_xz"].

Definition sample_body : list string :=
  [tab_join ["s1"; "Escherichia coli"; "A.tar.xz"];
   tab_join ["s2"; "Salmonella enterica"; "B.tar.xz"];
   tab_join ["s3"; "Escherichia albertii"; "B.tar.xz"]].

Definition sample_header_plain : string := tab_join ["sample"; "tar_xz"].

(** A stand-in pattern: the field starts with ["Escherichia"]. *)
Definition sample_search (v : string) : bool := String.prefix "Escherichia" v.

(** * Properties *)

(** ** Strings *)

Lemma lower_app (a b : string) : lower (a ++ b) = (lower a ++ lower b)%string.
Proof. induction a as [|c a IH]; simpl; [reflexivity | now rewrite IH]. Qed.

Lemma lower_hex_of_ascii (c : ascii) : lower (hex_of_ascii c) = hex_of_ascii c.
Proof.
  destruct c as [[] [] [] [] [] [] [] []]; vm_compute; reflexivity.
Qed.

(** A hexadecimal rendering is already in lower case. *)
Lemma lower_hex_of_bytes (s : string) : lower (hex_of_bytes s) = hex_of_bytes s.
Proof.
  induction s as [|c s IH]; [reflexivity|].
  change (hex_of_bytes (String c s))
    with (hex_of_ascii c ++ hex_of_bytes s)%string.
  now rewrite lower_app, lower_hex_of_ascii, IH.
Qed.

Lemma eqb_empty_false (e : string) : e ≠ "" -> String.eqb e "" = false.
Proof. intros H. now apply String.eqb_neq. Qed.

(** ** The checksum verifier *)

Section Verifier.

Variable md5_digest : string -> string.

Lemma eq_nocase_hexdigest (d e : string) :
  eq_nocase (hexdigest md5_digest d) e
  = String.eqb (hexdigest md5_digest d) (lower e).
Proof. unfold eq_nocase, hexdigest. now rewrite lower_hex_of_bytes. Qed.

(** [md5_ok] as a function of what the path leads to. *)
Lemma md5_ok_eq (p : path) (expected : option string) (w : world) :
  md5_ok md5_digest p expected w
  = (match expected with
     | None => Ok false
     | Some e =>
         if String.eqb e "" then Ok false
         else match resolve (files w) p with
              | None => Ok false
              | Some (File d) => Ok (String.eqb (hexdigest md5_digest d) (lower e))
              | Some Dir => Raise IsADirectoryError
              end
     end, w).
Proof.
  destruct expected as [e|]; [|reflexivity].
  unfold md5_ok. destruct (String.eqb e ""); [reflexivity|].
  unfold bind, path_exists, read_file, ret.
  destruct (resolve (files w) p) as [[d|]|] eqn:Hp; cbn; rewrite ?Hp; reflexivity.
Qed.

Lemma md5_ok_falsy (p : path) (expected : option string) (w : world) :
  truthy expected = false -> md5_ok md5_digest p expected w = (Ok false, w).
Proof.
  rewrite md5_ok_eq. destruct expected as [e|]; simpl; [|reflexivity].
  destruct (String.eqb e ""); [reflexivity | discriminate].
Qed.

Lemma md5_ok_absent (p : path) (expected : option string) (w : world) :
  resolve (files w) p = None -> md5_ok md5_digest p expected w = (Ok false, w).
Proof.
  intros Hp. rewrite md5_ok_eq, Hp. destruct expected as [e|]; [|reflexivity].
  destruct (String.eqb e ""); reflexivity.
Qed.

Lemma md5_ok_file (p : path) (e d : string) (w : world) :
  e ≠ "" -> resolve (files w) p = Some (File d) ->
  md5_ok md5_digest p (Some e) w = (Ok (eq_nocase (hexdigest md5_digest d) e), w).
Proof.
  intros He Hp.
  now rewrite md5_ok_eq, Hp, (eqb_empty_false _ He), eq_nocase_hexdigest.
Qed.

(** Whatever [md5_ok] answers, it leaves the world as it was. *)
Lemma md5_ok_pure (p : path) (expected : option string) (w : world) :
  snd (md5_ok md5_digest p expected w) = w.
Proof. now rewrite md5_ok_eq. Qed.

(** When [md5_ok] says yes, the path holds a regular file whose digest is
    the expected one. *)
Lemma md5_ok_true_inv (p : path) (expected : option string) (w w' : world) :
  md5_ok md5_digest p expected w = (Ok true, w') ->
  w' = w /\ exists e d, expected = Some e /\ e ≠ "" /\
    resolve (files w) p = Some (File d) /\
    eq_nocase (hexdigest md5_digest d) e = true.
Proof.
  rewrite md5_ok_eq. intros H.
  destruct expected as [e|]; [|discriminate].
  destruct (String.eqb e "") eqn:He; [discriminate|].
  destruct (resolve (files w) p) as [[d|]|] eqn:Hp; try discriminate.
  injection H as H1 H2. split; [congruence|].
  exists e, d. repeat split; auto.
  - intros ->. discriminate.
  - now rewrite eq_nocase_hexdigest.
Qed.

(** C5. [md5_ok] answers false when the expected checksum is absent or
    empty and when the path does not exist; for a regular file and a
    non-empty expected checksum it answers whether the hexadecimal digest of
    the file equals the expected string up to letter case; in each of these
    cases the world, hence the file, is left untouched. *)
Theorem md5_ok_spec (p : path) (expected : option string) (w : world) :
  (truthy expected = false \/ resolve (files w) p = None ->
   md5_ok md5_digest p expected w = (Ok false, w)) /\
  (forall e d, expected = Some e -> e ≠ "" ->
     resolve (files w) p = Some (File d) ->
     md5_ok md5_digest p expected w
     = (Ok (eq_nocase (hexdigest md5_digest d) e), w)).
Proof.
  split.
  - intros [H|H]; [now apply md5_ok_falsy | now apply md5_ok_absent].
  - intros e d -> He Hp. now apply md5_ok_file.
Qed.

End Verifier.

(** ** Running computations *)

Lemma bind_inv {A B} (m : M A) (k : A -> M B) (w w' : world) (r : result B) :
  bind m k w = (r, w') ->
  (exists a w1, m w = (Ok a, w1) /\ k a w1 = (r, w')) \/
  (exists e, m w = (Raise e, w') /\ r = Raise e).
Proof.
  unfold bind. destruct (m w) as [[a|e] w1]; intros H.
  - left. eauto.
  - right. injection H as <- <-. eauto.
Qed.

Lemma try_except_inv {A} (m : M A) (h : exn -> M A) (w w' : world) (r : result A) :
  try_except m h w = (r, w') ->
  (exists a, m w = (Ok a, w') /\ r = Ok a) \/
  (exists e w1, m w = (Raise e, w1) /\ h e w1 = (r, w')).
Proof.
  unfold try_except. destruct (m w) as [[a|e] w1]; intros H.
  - left. injection H as <- <-. eauto.
  - right. eauto.
Qed.

(** What each primitive leaves alone. *)

Lemma write_file_frame p d w r w' :
  write_file p d w = (r, w') ->
  heap w' = heap w /\ net w' = net w /\ trace w' = trace w.
Proof. unfold write_file. intros H. repeat case_match; simplify_eq; done. Qed.

Lemma replace_file_frame src dst w r w' :
  replace_file src dst w = (r, w') ->
  heap w' = heap w /\ net w' = net w /\ trace w' = trace w.
Proof. unfold replace_file. intros H. repeat case_match; simplify_eq; done. Qed.

Lemma unlink_frame p w r w' :
  unlink p w = (r, w') ->
  heap w' = heap w /\ net w' = net w /\ trace w' = trace w.
Proof. unfold unlink. intros H. repeat case_match; simplify_eq; done. Qed.

Lemma mkdir_parents_frame p w r w' :
  mkdir_parents p w = (r, w') ->
  heap w' = heap w /\ net w' = net w /\ trace w' = trace w.
Proof. unfold mkdir_parents. intros H. repeat case_match; simplify_eq; done. Qed.

Lemma read_file_same p w r w' : read_file p w = (r, w') -> w' = w.
Proof. unfold read_file. intros H. repeat case_match; simplify_eq; done. Qed.

(** ** The extractor *)

Section Extractor.

Variable tar_decode : bool -> string -> option (list member).

Lemma open_tar_same tar_path w r w' :
  open_tar tar_decode tar_path w = (r, w') -> w' = w.
Proof.
  unfold open_tar. intros H.
  apply bind_inv in H as [(d & w1 & H1 & H)|(e & H1 & _)];
    apply read_file_same in H1; subst; [|reflexivity].
  destruct (tar_decode _ d); unfold ret, raise in H; congruence.
Qed.

(** The loop only ever shrinks the object [missing], and touches no other
    object of the heap. *)
Lemma extract_loop_heap ms missing outdir strip :
  forall w r w' s, heap w !! missing = Some s ->
    extract_loop ms missing outdir strip w = (r, w') ->
    exists s', s' ⊆ s /\ heap w' = <[missing := s']> (heap w).
Proof.
  induction ms as [|m rest IH]; intros w r w' s Hs H.
  - injection H as <- <-. exists s. split; [done|]. by rewrite insert_id.
  - cbn [extract_loop] in H. destruct (isreg m); cbn [negb] in H; [|eauto].
    apply bind_inv in H as [(s0 & w1 & H0 & H)|(e & H0 & _)]; [|discriminate].
    unfold read_set in H0. injection H0 as <- <-. rewrite Hs in H. cbn [default] in H.
    assert (Hafter : forall w0 s0 r0 w0', heap w0 !! missing = Some s0 ->
      (let* s' := read_set missing in
       if bool_decide (s' = ∅) then ret tt
       else extract_loop rest missing outdir strip) w0 = (r0, w0') ->
      exists s', s' ⊆ s0 /\ heap w0' = <[missing := s']> (heap w0)).
    { intros w0 s0 r0 w0' Hs0 Ha.
      apply bind_inv in Ha as [(s1 & w1 & H1 & Ha)|(e & H1 & _)]; [|discriminate].
      unfold read_set in H1. injection H1 as <- <-.
      case_bool_decide; [|eauto].
      unfold ret in Ha. injection Ha as <- <-. exists s0. split; [done|].
      by rewrite insert_id. }
    case_bool_decide; [|eauto].
    destruct (extractfile m) as [data|]; [|eauto].
    apply bind_inv in H as [([] & w1 & H1 & H)|(e & H1 & _)].
    2:{ apply write_file_frame in H1 as (H1 & _). rewrite H1. exists s.
        split; [done|]. by rewrite insert_id. }
    apply write_file_frame in H1 as (H1 & _).
    apply bind_inv in H as [([] & w2 & H2 & H)|(e & H2 & _)]; [|discriminate].
    unfold set_remove in H2. injection H2 as <-.
    eapply Hafter in H as (s' & Hsub & Hh).
    2:{ cbn. rewrite lookup_insert_eq. reflexivity. }
    cbn in Hh. rewrite H1 in Hsub. rewrite H1 in Hh.
    rewrite Hs in Hsub. rewrite Hs in Hh. cbn in Hsub, Hh.
    exists s'. split.
    { intros x Hx. apply Hsub in Hx. by apply elem_of_difference in Hx as [? _]. }
    rewrite Hh. by rewrite insert_insert_eq.
Qed.

(** The heap after [extract_selected]: the only change is one new object,
    a subset of the wanted set, which is the one returned. *)
Lemma extract_selected_heap tar_path members_to_get outdir strip w r w' wanted :
  heap w !! members_to_get = Some wanted ->
  extract_selected tar_decode tar_path members_to_get outdir strip w = (r, w') ->
  (exists e, r = Raise e /\ heap w' = heap w) \/
  (exists s', s' ⊆ wanted /\
     heap w' = <[fresh (dom (heap w)) := s']> (heap w) /\
     (r = Ok (fresh (dom (heap w))) \/ exists e, r = Raise e)).
Proof.
  intros Hw H. unfold extract_selected in H.
  apply bind_inv in H as [([] & w1 & H1 & H)|(e & H1 & ->)];
    apply mkdir_parents_frame in H1 as (H1 & _); [|left; eauto].
  apply bind_inv in H as [(s0 & w2 & H2 & H)|(e & H2 & _)]; [|discriminate].
  unfold read_set in H2. injection H2 as <- <-.
  apply bind_inv in H as [(l & w3 & H3 & H)|(e & H3 & _)]; [|discriminate].
  unfold new_set in H3. injection H3 as <- <-.
  rewrite H1, Hw in H. cbn [default] in H.
  set (l := fresh (dom (heap w))) in *.
  right.
  apply bind_inv in H as [(ms & w4 & H4 & H)|(e & H4 & ->)];
    apply open_tar_same in H4; subst.
  2:{ exists wanted. cbn. eauto. }
  apply bind_inv in H as [([] & w5 & H5 & H)|(e & H5 & ->)].
  - unfold ret in H. injection H as <- <-.
    eapply extract_loop_heap in H5 as (s' & Hsub & Hh).
    2:{ cbn. apply lookup_insert_eq. }
    exists s'. split; [done|]. split; [|by left].
    rewrite Hh. cbn. by rewrite insert_insert_eq.
  - eapply extract_loop_heap in H5 as (s' & Hsub & Hh).
    2:{ cbn. apply lookup_insert_eq. }
    exists s'. split; [done|]. split; [|eauto].
    rewrite Hh. cbn. by rewrite insert_insert_eq.
Qed.

Lemma fresh_not_allocated (h : gmap nat (gset string)) (l : nat) (s : gset string) :
  h !! l = Some s -> fresh (dom h) ≠ l.
Proof.
  intros Hl Heq. apply (is_fresh (dom h)). rewrite Heq.
  apply elem_of_dom. eauto.
Qed.

(** C3. When [extract_selected] returns, the returned set [missing] and
    [found], the wanted set minus [missing], partition the wanted set:
    their union is the wanted set, they are disjoint, and [missing] is a
    subset of the wanted set. *)
Theorem extract_selected_partition
  (tar_path : path) (members_to_get : nat) (outdir : path) (strip : Z)
  (w w' : world) (wanted : gset string) (l : nat) :
  heap w !! members_to_get = Some wanted ->
  extract_selected tar_decode tar_path members_to_get outdir strip w = (Ok l, w') ->
  exists missing : gset string,
    heap w' !! l = Some missing /\
    (wanted ∖ missing) ∪ missing = wanted /\
    (wanted ∖ missing) ∩ missing = ∅ /\
    missing ⊆ wanted.
Proof.
  intros Hw H.
  destruct (extract_selected_heap _ _ _ _ _ _ _ _ Hw H)
    as [(e & He & _)|(s' & Hsub & Hh & [Hr|(e & He)])]; try discriminate.
  injection Hr as ->. exists s'. split.
  { rewrite Hh. apply lookup_insert_eq. }
  split; [|split; [|done]].
  - apply set_eq. intros x. rewrite elem_of_union, elem_of_difference.
    split; [intros [[? _]|?]; auto|].
    intros Hx. destruct (decide (x ∈ s')); auto.
  - apply set_eq. intros x.
    rewrite elem_of_intersection, elem_of_difference, elem_of_empty. tauto.
Qed.

(** C9. Whatever [extract_selected] does, returning or raising, the set
    object passed as [members_to_get] holds the same elements afterwards as
    before: the function removes elements from a copy only. *)
Theorem extract_selected_keeps_input
  (tar_path : path) (members_to_get : nat) (outdir : path) (strip : Z)
  (w w' : world) (r : result nat) (wanted : gset string) :
  heap w !! members_to_get = Some wanted ->
  extract_selected tar_decode tar_path members_to_get outdir strip w = (r, w') ->
  heap w' !! members_to_get = Some wanted.
Proof.
  intros Hw H.
  destruct (extract_selected_heap _ _ _ _ _ _ _ _ Hw H)
    as [(e & _ & Hh)|(s' & _ & Hh & _)]; rewrite Hh; [done|].
  rewrite lookup_insert_ne; [done|]. by eapply fresh_not_allocated.
Qed.

End Extractor.

(** ** Paths and the file system *)

Lemma prefixes_snoc (l : path) (x : string) :
  prefixes (l ++ [x]) = (prefixes l ++ [l ++ [x]])%list.
Proof.
  induction l as [|y l IH]; [reflexivity|].
  simpl. rewrite IH, List.map_app. reflexivity.
Qed.

Lemma prefixes_length (p q : path) :
  In q (prefixes p) -> (0 < length q <= length p)%nat.
Proof.
  revert q. induction p as [|x p IH]; intros q; simpl; [tauto|].
  intros [<-|Hq]; [simpl; lia|].
  apply in_map_iff in Hq as (q' & <- & Hq'). apply IH in Hq'. simpl. lia.
Qed.

Lemma path_split (p : path) : p ≠ [] -> p = (parent p ++ [path_name p])%list.
Proof. intros Hp. now apply app_removelast_last. Qed.

Lemma parent_length (p : path) : p ≠ [] -> length p = S (length (parent p)).
Proof.
  intros Hp. rewrite (path_split p Hp) at 1. rewrite length_app. simpl. lia.
Qed.

Lemma prefixes_parent (p : path) :
  p ≠ [] -> prefixes p = (prefixes (parent p) ++ [p])%list.
Proof.
  intros Hp. pose proof (path_split p Hp) as E.
  rewrite E at 1. rewrite prefixes_snoc. now rewrite <- E.
Qed.

Lemma not_in_prefixes_parent (p q : path) :
  length q = length p -> ~ In q (prefixes (parent p)).
Proof.
  intros Hl Hin. apply prefixes_length in Hin.
  destruct p as [|x p]; [simpl in *; lia|].
  rewrite (parent_length (x :: p)) in Hl by discriminate. lia.
Qed.

Lemma parent_part_path (out : path) : parent (part_path out) = parent out.
Proof. apply removelast_last. Qed.

Lemma part_path_length (out : path) :
  out ≠ [] -> length (part_path out) = length out.
Proof.
  intros Hp. unfold part_path. rewrite length_app, (parent_length out Hp).
  simpl. lia.
Qed.

Lemma append_length (a b : string) :
  String.length (a ++ b) = (String.length a + String.length b)%nat.
Proof. induction a as [|c a IH]; simpl; [reflexivity | now rewrite IH]. Qed.

Lemma part_path_neq (out : path) : part_path out ≠ out.
Proof.
  destruct (decide (out = [])) as [->|Hp]; [discriminate|].
  intros Heq. pose proof (path_split out Hp) as E.
  unfold part_path in Heq. rewrite <- Heq in E at 1.
  apply app_inj_tail in E as [_ E]. clear Heq. rename E into Heq.
  apply (f_equal String.length) in Heq. rewrite append_length in Heq.
  simpl in Heq. lia.
Qed.

Lemma with_part_suffix_eq (out : path) (w : world) :
  with_part_suffix out w
  = match out with
    | [] => (Raise (ValueError "empty name"), w)
    | _ => (Ok (part_path out), w)
    end.
Proof. destruct out; reflexivity. Qed.

Lemma forallb_dir_at_ext (fs fs' : gmap path node) (qs : list path) :
  (forall q, In q qs -> fs' !! q = fs !! q) ->
  forallb (dir_at fs') qs = forallb (dir_at fs) qs.
Proof.
  intros H. induction qs as [|q qs IH]; [reflexivity|].
  simpl. unfold dir_at at 1 3. rewrite H by (left; reflexivity).
  rewrite IH; [reflexivity|]. intros q' Hq'. apply H. now right.
Qed.

(** A path resolves alike in two file systems that agree on it and on its
    ancestors. *)
Lemma resolve_ext (fs fs' : gmap path node) (p : path) :
  (forall q, In q (prefixes (parent p)) -> fs' !! q = fs !! q) ->
  fs' !! p = fs !! p ->
  resolve fs' p = resolve fs p.
Proof.
  intros Ha Hp. destruct p as [|x p]; [reflexivity|].
  unfold resolve. now rewrite (forallb_dir_at_ext fs fs' _ Ha), Hp.
Qed.

Lemma resolve_dir_intro (fs : gmap path node) (p : path) :
  (forall q, In q (prefixes p) -> fs !! q = Some Dir) -> resolve fs p = Some Dir.
Proof.
  intros H. destruct (decide (p = [])) as [->|Hp]; [reflexivity|].
  rewrite (prefixes_parent p Hp) in H.
  assert (Hanc : forallb (dir_at fs) (prefixes (parent p)) = true).
  { apply forallb_forall. intros q Hq. unfold dir_at.
    rewrite H; [reflexivity|]. apply in_or_app. now left. }
  destruct p as [|x p]; [done|]. unfold resolve. rewrite Hanc.
  apply H. apply in_or_app. right. now left.
Qed.

Lemma resolve_dir_elim (fs : gmap path node) (p : path) :
  resolve fs p = Some Dir -> forallb (dir_at fs) (prefixes p) = true.
Proof.
  intros H. destruct (decide (p = [])) as [->|Hp]; [reflexivity|].
  rewrite (prefixes_parent p Hp), forallb_app.
  destruct p as [|x p]; [done|]. unfold resolve in H.
  destruct (forallb _ (prefixes (parent (x :: p)))); [|discriminate].
  simpl. unfold dir_at. now rewrite H.
Qed.

(** A path whose parent is a directory resolves to what the map holds. *)
Lemma resolve_child (fs : gmap path node) (p : path) :
  p ≠ [] -> resolve fs (parent p) = Some Dir -> resolve fs p = fs !! p.
Proof.
  intros Hp Hd. apply resolve_dir_elim in Hd.
  destruct p as [|x p]; [done|]. unfold resolve. now rewrite Hd.
Qed.

Lemma resolve_file_inv (fs : gmap path node) (p : path) (d : string) :
  resolve fs p = Some (File d) ->
  p ≠ [] /\ forallb (dir_at fs) (prefixes (parent p)) = true /\
  fs !! p = Some (File d).
Proof.
  destruct p as [|x p]; [discriminate|]. unfold resolve.
  destruct (forallb _ _); [|discriminate]. intros H. repeat split; auto.
Qed.

Lemma mkdir_chain_spec (qs : list path) :
  forall fs fs', mkdir_chain qs fs = Ok fs' ->
    (forall q, In q qs -> fs' !! q = Some Dir) /\
    (forall p, ~ In p qs -> fs' !! p = fs !! p) /\
    (forall p d, fs' !! p = Some (File d) <-> fs !! p = Some (File d)).
Proof.
  induction qs as [|q qs IH]; intros fs fs' H.
  - injection H as <-. repeat split; intros; simpl in *; auto; tauto.
  - simpl in H.
    assert (Hq : forall d, fs !! q ≠ Some (File d) ) by
      (intros d Hd; rewrite Hd in H; discriminate).
    assert (H' : mkdir_chain qs (<[q := Dir]> fs) = Ok fs')
      by (destruct (fs !! q) as [[d|]|]; [discriminate | exact H | exact H]).
    clear H. destruct (IH _ _ H') as (I1 & I2 & I3). repeat split.
    + intros p [<-|Hp]; [|now apply I1].
      destruct (decide (q ∈ qs)) as [Hin|Hnin];
        rewrite list_elem_of_In in *; [now apply I1|].
      rewrite (I2 _ Hnin). apply lookup_insert_eq.
    + intros p Hp. rewrite I2 by (intros Hin; apply Hp; now right).
      apply lookup_insert_ne. intros ->. apply Hp. now left.
    + rewrite I3. destruct (decide (q = p)) as [->|Hne].
      * rewrite lookup_insert_eq. discriminate.
      * now rewrite lookup_insert_ne.
    + rewrite I3. destruct (decide (q = p)) as [->|Hne].
      * intros Hd. now apply Hq in Hd.
      * now rewrite lookup_insert_ne.
Qed.

Lemma mkdir_chain_id (qs : list path) (fs : gmap path node) :
  forallb (dir_at fs) qs = true -> mkdir_chain qs fs = Ok fs.
Proof.
  induction qs as [|q qs IH]; [reflexivity|].
  simpl. unfold dir_at at 1. intros H. apply andb_prop in H as [Hq Hqs].
  destruct (fs !! q) as [[d|]|] eqn:E; try discriminate.
  rewrite insert_id by exact E. now apply IH.
Qed.

Lemma with_files_id (w : world) : with_files (files w) w = w.
Proof. now destruct w. Qed.

(** Creating the parents of a path that leads to a file changes nothing. *)
Lemma mkdir_parents_existing (out : path) (d : string) (w : world) :
  resolve (files w) out = Some (File d) ->
  mkdir_parents (parent out) w = (Ok tt, w).
Proof.
  intros H. apply resolve_file_inv in H as (_ & Hanc & _).
  unfold mkdir_parents. rewrite (mkdir_chain_id _ _ Hanc).
  now rewrite with_files_id.
Qed.

(** What a successful [mkdir_parents] establishes and keeps. *)
Lemma mkdir_parents_ok (p : path) (w w1 : world) :
  mkdir_parents p w = (Ok tt, w1) ->
  resolve (files w1) p = Some Dir /\
  (forall q, ~ In q (prefixes p) -> files w1 !! q = files w !! q) /\
  (forall q d, files w1 !! q = Some (File d) <-> files w !! q = Some (File d)) /\
  heap w1 = heap w /\ net w1 = net w /\ trace w1 = trace w.
Proof.
  unfold mkdir_parents. intros H.
  destruct (mkdir_chain (prefixes p) (files w)) as [fs|e] eqn:E; [|discriminate].
  injection H as <-. apply mkdir_chain_spec in E as (I1 & I2 & I3).
  repeat split; try (apply I3); auto.
  now apply resolve_dir_intro.
Qed.

(** Entries at keys that are not shorter than a path, and differ from it,
    have no part in what the path leads to. *)
Lemma prefixes_parent_shorter (p q : path) :
  In q (prefixes (parent p)) -> (length q < length p)%nat.
Proof.
  intros Hq. apply prefixes_length in Hq.
  destruct (decide (p = [])) as [->|Hp]; [simpl in Hq; lia|].
  rewrite (parent_length p Hp). lia.
Qed.

Lemma resolve_insert_ne (fs : gmap path node) (k p : path) (n : node) :
  (length p <= length k)%nat -> k ≠ p ->
  resolve (<[k := n]> fs) p = resolve fs p.
Proof.
  intros Hl Hne. apply resolve_ext.
  - intros q Hq. apply prefixes_parent_shorter in Hq.
    apply lookup_insert_ne. intros ->. lia.
  - now apply lookup_insert_ne.
Qed.

Lemma resolve_delete_ne (fs : gmap path node) (k p : path) :
  (length p <= length k)%nat -> k ≠ p ->
  resolve (delete k fs) p = resolve fs p.
Proof.
  intros Hl Hne. apply resolve_ext.
  - intros q Hq. apply prefixes_parent_shorter in Hq.
    apply lookup_delete_ne. intros ->. lia.
  - now apply lookup_delete_ne.
Qed.

Lemma part_path_not_ancestor (out : path) :
  ~ In (part_path out) (prefixes (parent out)).
Proof.
  destruct (decide (out = [])) as [->|Hp]; [simpl; tauto|].
  apply not_in_prefixes_parent. now apply part_path_length.
Qed.

Lemma urlopen_frame url w r w' :
  urlopen url w = (r, w') ->
  files w' = files w /\ heap w' = heap w /\
  trace w' = (trace w ++ [Request url])%list.
Proof. unfold urlopen. intros H. repeat case_match; simplify_eq; done. Qed.

Lemma write_file_ok p d w w' :
  write_file p d w = (Ok tt, w') ->
  resolve (files w) (parent p) = Some Dir /\
  resolve (files w) p ≠ Some Dir /\
  w' = with_files (<[p := File d]> (files w)) w.
Proof.
  unfold write_file. intros H.
  repeat case_match; simplify_eq; repeat split; congruence.
Qed.

Lemma write_file_raise p d w e w' :
  write_file p d w = (Raise e, w') -> w' = w.
Proof. unfold write_file. intros H. repeat case_match; simplify_eq; done. Qed.

Lemma replace_file_ok src dst w w' :
  replace_file src dst w = (Ok tt, w') ->
  exists d, resolve (files w) src = Some (File d) /\
    w' = with_files (<[dst := File d]> (delete src (files w))) w.
Proof.
  unfold replace_file. intros H. repeat case_match; simplify_eq; eauto.
Qed.

Lemma replace_file_raise src dst w e w' :
  replace_file src dst w = (Raise e, w') ->
  w' = w /\
  (resolve (files w) (parent dst) = Some Dir ->
   resolve (files w) dst ≠ Some Dir ->
   forall d, resolve (files w) src ≠ Some (File d)).
Proof.
  unfold replace_file. intros H.
  repeat case_match; simplify_eq; split; try done; intros; congruence.
Qed.

(** ** The fetcher *)

Section Fetcher.

Variable md5_digest : string -> string.

Lemma truthy_md5_ok (out : path) (expected_md5 : option string) (w : world) :
  (if truthy expected_md5 then md5_ok md5_digest out expected_md5 else ret false) w
  = md5_ok md5_digest out expected_md5 w.
Proof.
  destruct (truthy expected_md5) eqn:E; [reflexivity|].
  now rewrite md5_ok_falsy.
Qed.

Lemma attempt_inv url out expected_md5 w r w' :
  attempt md5_digest url out expected_md5 w = (r, w') ->
  attempt_outcome md5_digest url out expected_md5 w r w'.
Proof.
  unfold attempt. intros H.
  apply bind_inv in H as [(c & w0 & Hc & H)|(e & Hc & ->)];
    rewrite truthy_md5_ok in Hc.
  2:{ pose proof (md5_ok_pure md5_digest out expected_md5 w) as Hs.
      rewrite Hc in Hs. simpl in Hs. subst. constructor. }
  destruct c.
  { apply md5_ok_true_inv in Hc as (-> & Hv).
    unfold ret in H. injection H as <- <-. now constructor. }
  assert (Hnd : truthy expected_md5 = true -> resolve (files w) out ≠ Some Dir).
  { intros Ht Hd. rewrite md5_ok_eq, Hd in Hc.
    destruct expected_md5 as [e|]; [|discriminate]. simpl in Ht.
    destruct (String.eqb e ""); discriminate. }
  pose proof (md5_ok_pure md5_digest out expected_md5 w) as Hs.
  rewrite Hc in Hs. simpl in Hs. subst w0. clear Hc.
  apply bind_inv in H as [(data & w1 & Hu & H)|(e & Hu & ->)];
    apply urlopen_frame in Hu as (F1 & F2 & F3).
  2:{ now apply AtNothingWritten. }
  apply bind_inv in H as [(tmp & w1' & Hp & H)|(e & Hp & ->)];
    rewrite with_part_suffix_eq in Hp.
  2:{ destruct out; [|discriminate]. injection Hp as _ <-.
      now apply AtNothingWritten. }
  assert (Hout : out ≠ []) by (intros ->; discriminate).
  destruct out as [|x out']; [done|]. injection Hp as <- <-.
  set (out := x :: out') in *.
  apply bind_inv in H as [([] & w2 & Hw & H)|(e & Hw & ->)].
  2:{ apply write_file_raise in Hw as ->. now apply AtNothingWritten. }
  apply bind_inv in H as [([] & w3 & Hr & H)|(e & Hr & ->)].
  2:{ pose proof (replace_file_raise _ _ _ _ _ Hr) as [-> _].
      eapply AtNotRenamed; eauto. }
  assert (Hfin : w' = w3 /\ (r = Ok "downloaded" \/ exists e, r = Raise e) /\
    (r = Ok "downloaded" -> truthy expected_md5 = true ->
     verified md5_digest expected_md5 out w3)).
  { assert (Hpure : forall rr ww,
      md5_ok md5_digest out expected_md5 w3 = (rr, ww) -> ww = w3).
    { intros rr ww Hg.
      pose proof (md5_ok_pure md5_digest out expected_md5 w3) as Hs.
      now rewrite Hg in Hs. }
    apply bind_inv in H as [(bad & w4 & Hb & H)|(e & Hb & ->)].
    - destruct (truthy expected_md5) eqn:Ht.
      + apply bind_inv in Hb as [(good & w5 & Hg & Hb)|(e & _ & ?)];
          [|discriminate].
        unfold ret in Hb. injection Hb as <- <-.
        pose proof (Hpure _ _ Hg) as ->.
        destruct good; simpl in H; unfold raise, ret in H; injection H as <- <-.
        * split; [done|]. split; [eauto|]. intros _ _.
          now apply md5_ok_true_inv in Hg as (_ & Hv).
        * split; [done|]. split; [eauto|]. discriminate.
      + unfold ret in Hb. injection Hb as <- <-.
        unfold ret in H. injection H as <- <-.
        split; [done|]. split; [eauto|]. discriminate.
    - split; [|split; [eauto | discriminate]].
      destruct (truthy expected_md5); [|discriminate].
      apply bind_inv in Hb as [(good & w5 & Hg & Hb)|(e' & Hg & _)];
        [discriminate|]. eauto. }
  destruct Hfin as (-> & Hr1 & Hr2).
  eapply (AtRenamed _ _ _ _ _ r data w1 w2 w3); eauto.
Qed.

(** An attempt leaves the heap alone and adds at most one request to the
    trace. *)
Lemma attempt_final_world url out expected_md5 w r w' :
  attempt md5_digest url out expected_md5 w = (r, w') ->
  heap w' = heap w /\
  (trace w' = trace w \/ trace w' = (trace w ++ [Request url])%list).
Proof.
  intros H. apply attempt_inv in H.
  destruct H as [Hv|e|e w1 F1 F2 F3|e data w1 w2 F1 F2 F3 _ _ Hw _
                |r data w1 w2 w3 F1 F2 F3 _ Hw Hr _ _]; auto.
  - apply write_file_frame in Hw as (G1 & _ & G3). split; [congruence|].
    right. congruence.
  - apply write_file_frame in Hw as (G1 & _ & G3).
    apply replace_file_frame in Hr as (K1 & _ & K3).
    split; [congruence|]. right. congruence.
Qed.

(** The rule of the retry loop, for a loop that runs up to the last index
    [attempts - 1]: an invariant [P] kept by failed attempts and by
    sleeping gives [Q] of whatever the loop ends with. *)
Lemma retry_loop_rule (url : string) (out : path) (expected_md5 : option string)
  (attempts : Z) (P : world -> Prop) (Q : result string -> world -> Prop) :
  (forall w e w', P w ->
     attempt md5_digest url out expected_md5 w = (Raise e, w') ->
     P w' /\ Q (Raise e) w') ->
  (forall w s w', P w ->
     attempt md5_digest url out expected_md5 w = (Ok s, w') -> Q (Ok s) w') ->
  (forall w s, P w -> P (log (Sleep s) w)) ->
  forall n i w r w',
    Z.of_nat n = attempts - i -> (0 < n)%nat -> P w ->
    retry_loop md5_digest n i attempts url out expected_md5 w = (r, w') ->
    Q r w'.
Proof.
  intros Hraise Hok Hsleep.
  induction n as [|n IH]; intros i w r w' Hn Hpos HP H; [lia|].
  cbn [retry_loop] in H.
  apply try_except_inv in H as [(s & Ha & ->)|(e & w1 & Ha & H)]; [eauto|].
  destruct (Hraise _ _ _ HP Ha) as [HP1 HQ1].
  destruct (i =? attempts - 1) eqn:Ei.
  - unfold raise in H. injection H as <- <-. exact HQ1.
  - apply Z.eqb_neq in Ei.
    apply bind_inv in H as [([] & w2 & Hs & H)|(e' & Hs & _)]; [|discriminate].
    unfold sleep in Hs. injection Hs as <-.
    apply (IH (i + 1) (log (Sleep (2 ^ i)) w1) r w'); auto; lia.
Qed.

Lemma retry_loop_zero url out expected_md5 i attempts w :
  retry_loop md5_digest 0 i attempts url out expected_md5 w = (Ok "failed", w).
Proof. reflexivity. Qed.



(** A successful call with a checksum leaves a verified destination. *)
Lemma download_ok_verified url out e attempts w s w' :
  0 < attempts -> e ≠ "" ->
  download_with_retry md5_digest url out (Some e) attempts w = (Ok s, w') ->
  verified md5_digest (Some e) out w'.
Proof.
  intros Hpos He H. unfold download_with_retry in H.
  apply bind_inv in H as [([] & w1 & Hm & H)|(e' & _ & ?)]; [|discriminate].
  apply (retry_loop_rule url out (Some e) attempts (fun _ => True)
           (fun r w' => forall s, r = Ok s -> verified md5_digest (Some e) out w'))
    with (s := s) in H; auto; try lia.
  - intros w0 e0 w0' _ _. split; [exact I | discriminate].
  - intros w0 s0 w0' _ Ha s1 _. apply attempt_inv in Ha.
    inversion Ha as [| | | |r0 data wa wb wc _ _ _ _ _ _ Hr Hv]; subst; auto.
    destruct Hr as [Hr|(e0 & Hr)]; [|discriminate].
    apply Hv; auto. simpl. now rewrite (eqb_empty_false _ He).
Qed.

Lemma download_cached url out e attempts w :
  0 < attempts -> verified md5_digest (Some e) out w ->
  download_with_retry md5_digest url out (Some e) attempts w
  = (Ok "cached-ok", w).
Proof.
  intros Hpos (e0 & d & [= <-] & He & Hres & Hd).
  unfold download_with_retry, bind.
  rewrite (mkdir_parents_existing _ _ _ Hres).
  destruct (Z.to_nat attempts) as [|n] eqn:En; [lia|].
  cbn [retry_loop]. unfold try_except, attempt, bind.
  rewrite truthy_md5_ok, (md5_ok_file _ _ _ _ _ He Hres), Hd. reflexivity.
Qed.

(** C4. With at least one attempt configured and a non-empty expected
    checksum: when the destination already holds a file that matches the
    checksum, the call returns ["cached-ok"] and leaves the world, trace of
    network requests included, exactly as it was; hence a second call
    after one that returned does so as well. *)
Theorem fetch_idempotent
  (url : string) (out : path) (e : string) (attempts : Z) (w : world) :
  0 < attempts -> e ≠ "" ->
  (forall d, resolve (files w) out = Some (File d) ->
     eq_nocase (hexdigest md5_digest d) e = true ->
     download_with_retry md5_digest url out (Some e) attempts w
     = (Ok "cached-ok", w)) /\
  (forall s w1,
     download_with_retry md5_digest url out (Some e) attempts w = (Ok s, w1) ->
     download_with_retry md5_digest url out (Some e) attempts w1
     = (Ok "cached-ok", w1)).
Proof.
  intros Hpos He. split.
  - intros d Hres Hd. apply download_cached; [exact Hpos|].
    exists e, d. auto.
  - intros s w1 H. apply download_cached; [exact Hpos|].
    eapply download_ok_verified; eauto.
Qed.

(** C10, as the code has it. With a non-positive attempt count the call
    is the creation of the parent directories and nothing more: when that
    fails its error propagates; when it succeeds the call returns
    ["failed"], with no network request, no sleep, and the same regular
    files at the same paths as before. *)
Theorem download_no_attempts
  (url : string) (out : path) (expected_md5 : option string) (attempts : Z)
  (w : world) :
  attempts <= 0 ->
  download_with_retry md5_digest url out expected_md5 attempts w
  = (match mkdir_parents (parent out) w with
     | (Ok _, w1) => (Ok "failed", w1)
     | (Raise e, w1) => (Raise e, w1)
     end) /\
  (forall w1, mkdir_parents (parent out) w = (Ok tt, w1) ->
     trace w1 = trace w /\ net w1 = net w /\
     forall p d, files w1 !! p = Some (File d) <-> files w !! p = Some (File d)).
Proof.
  intros Hle. split.
  - unfold download_with_retry, bind.
    replace (Z.to_nat attempts) with 0%nat by lia.
    destruct (mkdir_parents (parent out) w) as [[[]|e] w1]; reflexivity.
  - intros w1 Hm. apply mkdir_parents_ok in Hm as (_ & _ & Hf & _ & Hn & Ht).
    auto.
Qed.

(** *** Requests and delays *)

Lemma requests_app (a b : list event) :
  requests (a ++ b) = (requests a + requests b)%nat.
Proof.
  induction a as [|[u|z] a IH]; simpl; [reflexivity | now rewrite IH | exact IH].
Qed.

Lemma sleeps_app (a b : list event) :
  sleeps (a ++ b) = (sleeps a ++ sleeps b)%list.
Proof.
  induction a as [|[u|z] a IH]; simpl; [reflexivity | exact IH | now rewrite IH].
Qed.

Lemma backoff_cons (i : Z) (k : nat) :
  backoff i (S k) = 2 ^ i :: backoff (i + 1) k.
Proof.
  unfold backoff. cbn [seq List.map]. rewrite <- seq_shift, List.map_map.
  change (Z.of_nat 0) with 0. rewrite Z.add_0_r. f_equal.
  apply List.map_ext. intros j. f_equal. lia.
Qed.

Lemma backoff_sorted (k : nat) :
  forall i, 0 <= i -> Sorted Z.le (backoff i k).
Proof.
  induction k as [|k IH]; intros i Hi; [constructor|].
  rewrite backoff_cons. constructor; [apply IH; lia|].
  destruct k as [|k]; [constructor|].
  rewrite backoff_cons. constructor.
  apply Z.pow_le_mono_r; lia.
Qed.

(** One attempt asks the network at most once and never sleeps. *)
Lemma attempt_trace url out expected_md5 w r w' :
  attempt md5_digest url out expected_md5 w = (r, w') ->
  exists evs, trace w' = (trace w ++ evs)%list /\
    (requests evs <= 1)%nat /\ sleeps evs = [].
Proof.
  intros H. apply attempt_final_world in H as (_ & [Ht|Ht]).
  - exists []. rewrite app_nil_r. auto.
  - exists [Request url]. auto.
Qed.

(** [n] iterations from index [i] on ask the network at most [n] times and
    sleep [2 ** i], [2 ** (i + 1)], ... between them. *)
Lemma retry_loop_trace url out expected_md5 attempts :
  forall n i w r w',
    retry_loop md5_digest n i attempts url out expected_md5 w = (r, w') ->
    exists evs k, trace w' = (trace w ++ evs)%list /\
      (requests evs <= n)%nat /\ (k <= n)%nat /\ sleeps evs = backoff i k.
Proof.
  induction n as [|n IH]; intros i w r w' H.
  - injection H as <- <-. exists [], 0%nat. rewrite app_nil_r. auto.
  - cbn [retry_loop] in H.
    apply try_except_inv in H as [(s & Ha & ->)|(e & w1 & Ha & H)];
      apply attempt_trace in Ha as (evs0 & Ht0 & Hr0 & Hs0).
    { exists evs0, 0%nat. repeat split; auto; lia. }
    destruct (i =? attempts - 1).
    { unfold raise in H. injection H as <- <-.
      exists evs0, 0%nat. repeat split; auto; lia. }
    apply bind_inv in H as [([] & w2 & Hs & H)|(e' & Hs & _)]; [|discriminate].
    unfold sleep in Hs. injection Hs as <-.
    apply IH in H as (evs & k & Ht & Hr & Hk & Hsl).
    exists (evs0 ++ Sleep (2 ^ i) :: evs)%list, (S k).
    repeat split.
    + rewrite Ht. cbn [log trace]. rewrite Ht0.
      rewrite <- !app_assoc. reflexivity.
    + rewrite requests_app. simpl. lia.
    + lia.
    + rewrite sleeps_app, Hs0. simpl. now rewrite Hsl, backoff_cons.
Qed.

(** C7. Whatever a call to [download_with_retry] ends with, the events it
    adds to the trace hold at most [attempts] network requests, and the
    delays it sleeps are [2 ** 0], [2 ** 1], ... in this order, a
    non-decreasing sequence. *)
Theorem download_backoff
  (url : string) (out : path) (expected_md5 : option string) (attempts : Z)
  (w : world) :
  exists evs k,
    trace (snd (download_with_retry md5_digest url out expected_md5 attempts w))
    = (trace w ++ evs)%list /\
    Z.of_nat (requests evs) <= Z.max 0 attempts /\
    sleeps evs = backoff 0 k /\
    Sorted Z.le (sleeps evs).
Proof.
  destruct (download_with_retry md5_digest url out expected_md5 attempts w)
    as [r w'] eqn:H.
  unfold download_with_retry in H.
  apply bind_inv in H as [([] & w1 & Hm & H)|(e & Hm & ->)];
    apply mkdir_parents_frame in Hm as (_ & _ & Hm).
  - apply retry_loop_trace in H as (evs & k & Ht & Hr & Hk & Hs).
    exists evs, k. simpl. rewrite Ht, Hm.
    split; [reflexivity|]. split; [lia|]. split; [exact Hs|].
    rewrite Hs. now apply backoff_sorted.
  - exists [], 0%nat. simpl. rewrite Hm, app_nil_r.
    split; [reflexivity|]. split; [lia|]. split; [reflexivity | constructor].
Qed.

(** *** The temporary file *)

(** Writing the temporary file and renaming it: the destination holds the
    data and the temporary file is gone. *)
Lemma write_then_replace (out : path) (data : string) (w1 w2 w3 : world) :
  write_file (part_path out) data w1 = (Ok tt, w2) ->
  replace_file (part_path out) out w2 = (Ok tt, w3) ->
  resolve (files w1) (parent out) = Some Dir /\
  files w3 = <[out := File data]> (delete (part_path out) (files w1)).
Proof.
  intros Hw Hr.
  apply write_file_ok in Hw as (Hpar & _ & ->).
  rewrite parent_part_path in Hpar. split; [exact Hpar|].
  apply replace_file_ok in Hr as (d & Hres & ->).
  apply resolve_file_inv in Hres as (_ & _ & Hl). cbn in Hl.
  rewrite lookup_insert_eq in Hl. injection Hl as <-.
  cbn. now rewrite delete_insert_eq.
Qed.

Lemma parent_shorter (out : path) :
  out ≠ [] -> (length (parent out) < length out)%nat.
Proof. intros Hp. rewrite (parent_length out Hp). lia. Qed.

(** Changes at the destination and at its temporary sibling do not reach
    the parent directory. *)
Lemma resolve_parent_insert_out fs out n :
  out ≠ [] -> resolve (<[out := n]> fs) (parent out) = resolve fs (parent out).
Proof.
  intros Hp. pose proof (parent_shorter out Hp).
  apply resolve_insert_ne; [lia|]. intros E. rewrite <- E in H. lia.
Qed.

Lemma resolve_parent_insert_part fs out n :
  out ≠ [] ->
  resolve (<[part_path out := n]> fs) (parent out) = resolve fs (parent out).
Proof.
  intros Hp. pose proof (parent_shorter out Hp).
  pose proof (part_path_length out Hp).
  apply resolve_insert_ne; [lia|]. intros E. rewrite E in *. lia.
Qed.

Lemma resolve_parent_delete_part fs out :
  out ≠ [] ->
  resolve (delete (part_path out) fs) (parent out) = resolve fs (parent out).
Proof.
  intros Hp. pose proof (parent_shorter out Hp).
  pose proof (part_path_length out Hp).
  apply resolve_delete_ne; [lia|]. intros E. rewrite E in *. lia.
Qed.

Lemma attempt_part_inv url out expected_md5 w r w' :
  part_inv out w ->
  attempt md5_digest url out expected_md5 w = (r, w') ->
  part_inv out w' /\
  (forall s, r = Ok s -> exists d, resolve (files w') out = Some (File d)).
Proof.
  intros [Hpar Hinv] H. apply attempt_inv in H.
  destruct H as [Hv|e|e w1 F1 F2 F3|e data w1 w2 F1 F2 F3 _ Hout Hw Hr
                |r data w1 w2 w3 F1 F2 F3 Hout Hw Hr Hres _].
  - split; [split; assumption|]. intros s _.
    destruct Hv as (e & d & _ & _ & Hres & _). eauto.
  - split; [split; assumption | discriminate].
  - unfold part_inv. rewrite F1. split; [split; assumption | discriminate].
  - split; [|discriminate].
    apply write_file_ok in Hw as (Hpar1 & _ & ->).
    rewrite parent_part_path in Hpar1.
    apply replace_file_raise in Hr as [_ Hr]. cbn in Hr |- *.
    unfold part_inv. cbn.
    rewrite resolve_parent_insert_part in Hr |- * by exact Hout.
    split; [exact Hpar1|]. right.
    destruct (resolve (<[part_path out := File data]> (files w1)) out)
      as [[d|]|] eqn:Hres; [exfalso | reflexivity | exfalso].
    all: apply (Hr Hpar1 ltac:(discriminate) data).
    all: rewrite resolve_child;
      [apply lookup_insert_eq
      |intros E; apply (f_equal (@length string)) in E;
       rewrite part_path_length in E by exact Hout;
       destruct out; [done | discriminate]
      |rewrite parent_part_path, resolve_parent_insert_part by exact Hout;
       exact Hpar1].
  - destruct (write_then_replace _ _ _ _ _ Hw Hr) as [Hpar1 Hf].
    assert (Hp3 : resolve (files w3) (parent out) = Some Dir).
    { rewrite Hf, resolve_parent_insert_out, resolve_parent_delete_part
        by exact Hout. exact Hpar1. }
    split.
    + split; [exact Hp3|]. left. rewrite Hf.
      rewrite lookup_insert_ne by (intros E; symmetry in E;
                                   now apply part_path_neq in E).
      apply lookup_delete_eq.
    + intros s _. exists data.
      rewrite (resolve_child _ _ Hout Hp3), Hf. apply lookup_insert_eq.
Qed.

(** C8, as the code has it. When no temporary file exists before the
    call: after a call that returns ["downloaded"] or ["cached-ok"] no
    temporary file exists and the destination holds a regular file; after
    any call, also one that raises, a temporary file is left behind only if
    the destination path is a directory. *)
Theorem download_part_file
  (url : string) (out : path) (expected_md5 : option string) (attempts : Z)
  (w w' : world) (r : result string) :
  files w !! part_path out = None ->
  download_with_retry md5_digest url out expected_md5 attempts w = (r, w') ->
  (forall s, r = Ok s -> s ≠ "failed" ->
     files w' !! part_path out = None /\
     exists d, resolve (files w') out = Some (File d)) /\
  (files w' !! part_path out = None \/ resolve (files w') out = Some Dir).
Proof.
  intros Hno H. unfold download_with_retry in H.
  apply bind_inv in H as [([] & w1 & Hm & H)|(e & Hm & ->)].
  2:{ unfold mkdir_parents in Hm.
      destruct (mkdir_chain _ _); [discriminate|]. injection Hm as _ <-.
      split; [discriminate | now left]. }
  apply mkdir_parents_ok in Hm as (Hpar & Hsame & _).
  assert (Hinv : part_inv out w1).
  { split; [exact Hpar|]. left.
    rewrite Hsame by apply part_path_not_ancestor. exact Hno. }
  destruct (Z.to_nat attempts) as [|n] eqn:En.
  { injection H as <- <-. destruct Hinv as [_ Hinv].
    split; [|exact Hinv]. intros s [= <-] Hs. now contradiction Hs. }
  apply (retry_loop_rule url out expected_md5 attempts (part_inv out)
    (fun r w' => part_inv out w' /\
       (forall s, r = Ok s -> exists d, resolve (files w') out = Some (File d))))
    in H; try lia; try exact Hinv.
  - destruct H as [[_ Hi] Hok]. split; [|exact Hi].
    intros s -> _. destruct (Hok s eq_refl) as (d & Hd).
    split; [|eauto]. destruct Hi as [Hi|Hi]; [exact Hi | congruence].
  - intros w0 e w0' HP Ha.
    destruct (attempt_part_inv _ _ _ _ _ _ HP Ha) as [HP' HQ]. auto.
  - intros w0 s w0' HP Ha. now apply (attempt_part_inv _ _ _ _ _ _ HP Ha).
  - intros w0 s HP. exact HP.
Qed.

End Fetcher.

(** ** The plan *)

Lemma plan_get_none (key : string * string) (plan : plan_t) :
  plan_get key plan = None <-> ~ In key (List.map fst plan).
Proof.
  induction plan as [|[k l] plan IH]; simpl; [tauto|].
  case_bool_decide as Hk; [|tauto].
  split; [discriminate|]. intros Hn. exfalso. apply Hn. now left.
Qed.





(** ** The orchestrator *)

Section Orchestrator.

Variable md5_digest : string -> string.
Variable tar_decode : bool -> string -> option (list member).




End Orchestrator.

(** ** The pipeline on the sample inputs *)

(** [md5_ok] on the sample archive: its digest in upper case is accepted,
    a missing path is not. *)
Lemma md5_ok_spec_witness :
  md5_ok sum_digest ["t.tar"] (Some "E7") sample_world_archive
  = (Ok true, sample_world_archive) /\
  md5_ok sum_digest ["nowhere"] (Some "E7") sample_world_archive
  = (Ok false, sample_world_archive).
Proof.
  split.
  - apply (proj2 (md5_ok_spec sum_digest ["t.tar"] (Some "E7")
                    sample_world_archive) "E7" "TAR");
      [reflexivity | discriminate | vm_compute; reflexivity].
  - apply (proj1 (md5_ok_spec sum_digest ["nowhere"] (Some "E7")
                    sample_world_archive)).
    right. vm_compute. reflexivity.
Defined.

(** Extraction on the sample archive: of the two wanted members one is
    found and one is missing. *)
Lemma extract_selected_partition_witness :
  let w := sample_world_archive in
  let wanted : gset string := {[ "top/a.fa"; "top/zzz.fa" ]} in
  exists missing : gset string,
    heap (snd (extract_selected two_members ["t.tar"] 0 ["out"] 1 w)) !! 1%nat
    = Some missing /\
    (wanted ∖ missing) ∪ missing = wanted /\
    (wanted ∖ missing) ∩ missing = ∅ /\
    missing ⊆ wanted.
Proof.
  intros w wanted.
  apply (extract_selected_partition two_members ["t.tar"] 0%nat ["out"] 1 w
           (snd (extract_selected two_members ["t.tar"] 0 ["out"] 1 w))
           wanted 1%nat);
    vm_compute; reflexivity.
Defined.

Lemma extract_selected_keeps_input_witness :
  let w := sample_world_archive in
  heap (snd (extract_selected two_members ["t.tar"] 0 ["out"] 1 w)) !! 0%nat
  = Some ({[ "top/a.fa"; "top/zzz.fa" ]} : gset string).
Proof.
  intros w.
  apply (extract_selected_keeps_input two_members ["t.tar"] 0%nat ["out"] 1 w
           (snd (extract_selected two_members ["t.tar"] 0 ["out"] 1 w))
           (fst (extract_selected two_members ["t.tar"] 0 ["out"] 1 w)));
    vm_compute; reflexivity.
Defined.

(** A first fetch downloads, the second finds the file valid. *)
Lemma fetch_idempotent_witness :
  let out := ["out"; "_tars"; "B.tar.xz"] in
  let w1 := snd (download_with_retry sum_digest "uB" out (Some "E7") 5
                   sample_world) in
  download_with_retry sum_digest "uB" out (Some "E7") 5 w1 = (Ok "cached-ok", w1).
Proof.
  intros out w1.
  apply (proj2 (fetch_idempotent sum_digest "uB" out "E7" 5 sample_world
                  ltac:(lia) ltac:(discriminate)) "downloaded" w1).
  vm_compute. reflexivity.
Defined.



(** C10, counterexample. No attempt configured, and a regular file where
    the parent directory of the destination should be: the call raises. *)
Lemma no_attempts_mkdir_raises :
  fst (download_with_retry sum_digest "uB" ["f"; "A.tar.xz"] None 0
         sample_world_blocked)
  = Raise FileExistsError.
Proof. vm_compute. reflexivity. Qed.

Lemma download_no_attempts_witness :
  download_with_retry sum_digest "uB" ["out"; "_tars"; "B.tar.xz"] None 0
    sample_world
  = (Ok "failed",
     World {[ ["out"] := Dir; ["out"; "_tars"] := Dir ]}
           {[ "uB" := [Some "TAR"] ]} ∅ []).
Proof.
  rewrite (proj1 (download_no_attempts sum_digest "uB"
                    ["out"; "_tars"; "B.tar.xz"] None 0 sample_world
                    ltac:(lia))).
  vm_compute. reflexivity.
Defined.

(** C8, counterexample. The destination is the archive directory itself,
    as for a row with an empty archive name: the first attempt writes the
    temporary file and fails to rename it, the call ends by raising, and the
    temporary file is still there. *)
Lemma part_file_left_behind :
  let run := download_with_retry sum_digest "uB" ["out"; "_tars"] None 5
               sample_world_tars in
  files sample_world_tars !! ["out"; "_tars.part"] = None /\
  fst run = Raise URLError /\
  files (snd run) !! ["out"; "_tars.part"] = Some (File "TAR").
Proof. vm_compute. repeat split; reflexivity. Qed.

Lemma download_part_file_witness :
  let out := ["out"; "_tars"; "B.tar.xz"] in
  let run := download_with_retry sum_digest "uB" out None 5 sample_world in
  (forall s, fst run = Ok s -> s ≠ "failed" ->
     files (snd run) !! part_path out = None /\
     exists d, resolve (files (snd run)) out = Some (File d)) /\
  (files (snd run) !! part_path out = None \/
   resolve (files (snd run)) out = Some Dir).
Proof.
  intros out run.
  apply (download_part_file sum_digest "uB" out None 5 sample_world
           (snd run) (fst run)); vm_compute; reflexivity.
Defined.



(** * Further properties *)

(** ** Output names *)

Lemma parts_name_app (pre suf : list string) :
  suf ≠ [] -> parts_name (pre ++ suf) = parts_name suf.
Proof.
  intros Hs. unfold parts_name. rewrite rev_app_distr.
  destruct (rev suf) as [|n r] eqn:E; [|reflexivity].
  apply (f_equal (@rev string)) in E. rewrite rev_involutive in E.
  simpl in E. contradiction.
Qed.

Lemma parts_name_skipn (n : nat) (parts : list string) :
  skipn n parts ≠ [] -> parts_name (skipn n parts) = parts_name parts.
Proof.
  intros Hs. rewrite <- (firstn_skipn n parts) at 2.
  symmetry. now apply parts_name_app.
Qed.

Lemma target_name_last (member_name : string) (strip_components : Z) :
  target_name member_name strip_components = parts_name (py_parts member_name).
Proof.
  unfold target_name, py_slice_from.
  destruct (0 <=? strip_components).
  - destruct (skipn (Z.to_nat strip_components) (py_parts member_name))
      as [|x l] eqn:E; [reflexivity|].
    rewrite <- E. apply parts_name_skipn. rewrite E. discriminate.
  - destruct (skipn _ (py_parts member_name)) as [|x l] eqn:E; [reflexivity|].
    rewrite <- E. apply parts_name_skipn. rewrite E. discriminate.
Qed.

(** X1. The output name of a member does not depend on
    [strip_components]: whatever its value, negative ones included, the
    name is the last component of the member's path. *)
Theorem target_name_ignores_strip (member_name : string) (strip_components : Z) :
  target_name member_name strip_components = parts_name (py_parts member_name).
Proof. apply target_name_last. Qed.

(** The pieces of a split do not hold the separator. *)
Lemma split_on_sep_free (sep : ascii) (s : string) :
  forall c, In c (split_on sep s) -> has_char sep c = false.
Proof.
  induction s as [|a s IH]; simpl; intros c Hc.
  - destruct Hc as [<-|[]]. reflexivity.
  - destruct (Ascii.eqb a sep) eqn:Ea.
    + destruct Hc as [<-|Hc]; [reflexivity | now apply IH].
    + destruct (split_on sep s) as [|w ws] eqn:Es.
      * destruct Hc as [<-|[]]. simpl. now rewrite Ea.
      * destruct Hc as [<-|Hc].
        -- simpl. rewrite Ea. apply IH. now left.
        -- apply IH. now right.
Qed.

(** A string without the separator is its own and only piece. *)
Lemma split_on_whole (sep : ascii) (s : string) :
  has_char sep s = false -> split_on sep s = [s].
Proof.
  induction s as [|a s IH]; simpl; [reflexivity|].
  intros H. apply orb_false_elim in H as [Ha Hs].
  rewrite Ha, (IH Hs). reflexivity.
Qed.

Lemma path_parts_spec (s c : string) :
  In c (path_parts s) -> has_char "/" c = false /\ is_sep_free c = true.
Proof.
  unfold path_parts. intros H. apply filter_In in H as [H1 H2].
  split; [now apply (split_on_sep_free "/" s) | exact H2].
Qed.

Lemma parts_name_spec (parts : list string) :
  (forall c, In c parts -> c = "/" \/
     (has_char "/" c = false /\ is_sep_free c = true)) ->
  parts_name parts = "" \/
  (has_char "/" (parts_name parts) = false /\
   is_sep_free (parts_name parts) = true).
Proof.
  intros H. unfold parts_name.
  destruct (rev parts) as [|n r] eqn:E; [now left|].
  destruct (String.eqb n "/") eqn:En; [now left|]. right.
  assert (Hin : In n parts)
    by (apply in_rev; rewrite E; now left).
  destruct (H n Hin) as [->|Hn]; [discriminate | exact Hn].
Qed.

Lemma py_parts_spec (s c : string) :
  In c (py_parts s) -> c = "/" \/
    (has_char "/" c = false /\ is_sep_free c = true).
Proof.
  unfold py_parts. destruct (is_absolute s); simpl.
  - intros [<-|H]; [now left | right; now apply (path_parts_spec s)].
  - intros H. right. now apply (path_parts_spec s).
Qed.

(** X2. Extraction is flat: the output path of a member is a direct
    child of the output directory, named after the member's last
    component, or, when the member's path has no such component, the output
    directory itself. *)
Theorem output_path_flat (outdir : path) (strip_components : Z)
  (member_name : string) :
  let t := target_name member_name strip_components in
  (t ≠ "" /\ output_path outdir strip_components member_name
             = (outdir ++ [t])%list) \/
  (t = "" /\ output_path outdir strip_components member_name = outdir).
Proof.
  intros t. unfold output_path. fold t.
  assert (Ht : t = "" \/ (has_char "/" t = false /\ is_sep_free t = true)).
  { unfold t. rewrite target_name_last.
    apply parts_name_spec. intros c. apply py_parts_spec. }
  destruct Ht as [Ht|[Hc Hf]].
  - right. split; [exact Ht|]. rewrite Ht. unfold joinpath. simpl.
    apply app_nil_r.
  - left. assert (Hne : t ≠ "") by (intros E; rewrite E in Hf; discriminate).
    split; [exact Hne|]. unfold joinpath.
    assert (Habs : is_absolute t = false).
    { destruct t as [|a t']; [reflexivity|]. simpl in Hc |- *.
      now apply orb_false_elim in Hc as [Ha _]. }
    rewrite Habs. unfold path_parts. rewrite (split_on_whole _ _ Hc).
    simpl. now rewrite Hf.
Qed.

(** ** Extraction, member by member *)

Lemma extractfile_regular (m : member) :
  isreg m = true -> extractfile m = Some (payload m).
Proof. unfold isreg, extractfile. destruct (kind m); (reflexivity || discriminate). Qed.

(** One iteration of the loop, by the branch it takes. *)
Lemma extract_loop_step m rest missing outdir strip w r w' s :
  heap w !! missing = Some s ->
  extract_loop (m :: rest) missing outdir strip w = (r, w') ->
  (isreg m = false /\ extract_loop rest missing outdir strip w = (r, w')) \/
  (isreg m = true /\ (name m ∉ s) /\ s = ∅ /\ r = Ok tt /\ w' = w) \/
  (isreg m = true /\ (name m ∉ s) /\ s ≠ ∅ /\
   extract_loop rest missing outdir strip w = (r, w')) \/
  (isreg m = true /\ name m ∈ s /\ (exists e, r = Raise e) /\ w' = w) \/
  (isreg m = true /\ name m ∈ s /\
   resolve (files w) (parent (output_path outdir strip (name m))) = Some Dir /\
   (((s ∖ {[ name m ]}) = ∅ /\ r = Ok tt /\
     w' = extracted m missing outdir strip s w) \/
    ((s ∖ {[ name m ]}) ≠ ∅ /\
     extract_loop rest missing outdir strip
       (extracted m missing outdir strip s w) = (r, w')))).
Proof.
  intros Hs H. cbn [extract_loop] in H.
  destruct (isreg m) eqn:Hreg; cbn [negb] in H; [|now left].
  right.
  apply bind_inv in H as [(s0 & w1 & H0 & H)|(e & H0 & _)]; [|discriminate].
  unfold read_set in H0. injection H0 as <- <-. rewrite Hs in H.
  cbn [default] in H.
  case_bool_decide as Hin.
  - right. right.
    rewrite (extractfile_regular m Hreg) in H.
    apply bind_inv in H as [([] & w1 & H1 & H)|(e & H1 & ->)].
    2:{ left. apply write_file_raise in H1. subst. eauto 6. }
    right. split; [reflexivity|]. split; [exact Hin|].
    apply write_file_ok in H1 as (Hpar & _ & ->). split; [exact Hpar|].
    apply bind_inv in H as [([] & w2 & H2 & H)|(e & H2 & _)]; [|discriminate].
    unfold set_remove in H2. injection H2 as <-.
    cbn [heap with_files] in H. rewrite Hs in H. cbn [default] in H.
    apply bind_inv in H as [(s1 & w3 & H3 & H)|(e & H3 & _)]; [|discriminate].
    unfold read_set in H3. injection H3 as <- <-.
    cbn [heap with_heap] in H. rewrite lookup_insert_eq in H. cbn [default] in H.
    case_bool_decide as He.
    + left. unfold ret in H. injection H as <- <-. auto.
    + right. auto.
  - apply bind_inv in H as [(s1 & w3 & H3 & H)|(e & H3 & _)]; [|discriminate].
    unfold read_set in H3. injection H3 as <- <-. rewrite Hs in H.
    cbn [default] in H.
    case_bool_decide as He.
    + left. unfold ret in H. injection H as <- <-. auto.
    + right. left. auto.
Qed.

Lemma extracted_heap m missing outdir strip s w :
  heap (extracted m missing outdir strip s w) !! missing
  = Some (s ∖ {[ name m ]}).
Proof. cbn. apply lookup_insert_eq. Qed.

(** What the loop leaves of the set: the names of the regular members
    are struck off. *)
Lemma extract_loop_missing ms missing outdir strip :
  forall w w' s, heap w !! missing = Some s ->
    extract_loop ms missing outdir strip w = (Ok tt, w') ->
    heap w' !! missing = Some (s ∖ regular_names ms).
Proof.
  induction ms as [|m rest IH]; intros w w' s Hs H.
  - injection H as <-. rewrite Hs. f_equal. simpl. set_solver.
  - destruct (extract_loop_step _ _ _ _ _ _ _ _ _ Hs H)
      as [(Hreg & H1)|[(Hreg & Hn & He & _ & ->)|[(Hreg & Hn & He & H1)
         |[(Hreg & Hin & (e & Hr) & _)|(Hreg & Hin & _ & [(He & _ & ->)|(He & H1)])]]]];
      cbn [regular_names]; rewrite Hreg.
    + eauto.
    + rewrite Hs. f_equal. set_solver.
    + rewrite (IH _ _ _ Hs H1). f_equal. set_solver.
    + discriminate.
    + rewrite extracted_heap. f_equal. set_solver.
    + rewrite (IH _ _ _ (extracted_heap _ _ _ _ _ _) H1). f_equal. set_solver.
Qed.

(** A regular file on disk afterwards was there before, or is the output
    of a member that was still wanted. *)
Lemma extract_loop_files ms missing outdir strip :
  forall w r w' s, heap w !! missing = Some s ->
    extract_loop ms missing outdir strip w = (r, w') ->
    forall p d, files w' !! p = Some (File d) ->
      files w !! p = Some (File d) \/
      exists n, n ∈ s /\ p = output_path outdir strip n.
Proof.
  induction ms as [|m rest IH]; intros w r w' s Hs H p d Hp.
  - injection H as _ <-. now left.
  - destruct (extract_loop_step _ _ _ _ _ _ _ _ _ Hs H)
      as [(Hreg & H1)|[(Hreg & Hn & He & _ & ->)|[(Hreg & Hn & He & H1)
         |[(Hreg & Hin & _ & ->)|(Hreg & Hin & _ & [(He & _ & ->)|(He & H1)])]]]].
    + eauto.
    + now left.
    + eauto.
    + now left.
    + cbn in Hp.
      destruct (decide (output_path outdir strip (name m) = p)) as [<-|Hne].
      * right. eauto.
      * rewrite lookup_insert_ne in Hp by exact Hne. now left.
    + destruct (IH _ _ _ _ (extracted_heap _ _ _ _ _ _) H1 p d Hp)
        as [Hq|(n & Hn & ->)].
      * cbn in Hq.
        destruct (decide (output_path outdir strip (name m) = p)) as [<-|Hne].
        -- right. eauto.
        -- rewrite lookup_insert_ne in Hq by exact Hne. now left.
      * right. exists n. split; [|reflexivity].
        apply elem_of_difference in Hn as [Hn _]. exact Hn.
Qed.

(** The loop never removes a regular file. *)
Lemma extract_loop_keeps ms missing outdir strip :
  forall w r w' s, heap w !! missing = Some s ->
    extract_loop ms missing outdir strip w = (r, w') ->
    forall p d, files w !! p = Some (File d) ->
      exists d', files w' !! p = Some (File d').
Proof.
  induction ms as [|m rest IH]; intros w r w' s Hs H p d Hp.
  - injection H as _ <-. eauto.
  - destruct (extract_loop_step _ _ _ _ _ _ _ _ _ Hs H)
      as [(Hreg & H1)|[(Hreg & Hn & He & _ & ->)|[(Hreg & Hn & He & H1)
         |[(Hreg & Hin & _ & ->)|(Hreg & Hin & _ & [(He & _ & ->)|(He & H1)])]]]];
      eauto.
    + cbn. destruct (decide (output_path outdir strip (name m) = p)) as [<-|Hne].
      * rewrite lookup_insert_eq. eauto.
      * rewrite lookup_insert_ne by exact Hne. eauto.
    + assert (Hp2 : exists d2,
        files (extracted m missing outdir strip s w) !! p = Some (File d2)).
      { cbn. destruct (decide (output_path outdir strip (name m) = p)) as [<-|Hne].
        - rewrite lookup_insert_eq. eauto.
        - rewrite lookup_insert_ne by exact Hne. eauto. }
      destruct Hp2 as (d2 & Hp2).
      exact (IH _ _ _ _ (extracted_heap _ _ _ _ _ _) H1 p d2 Hp2).
Qed.

(** Every member struck off the set has its output file on disk. *)
Lemma extract_loop_found ms missing outdir strip :
  forall w r w' s s', heap w !! missing = Some s ->
    extract_loop ms missing outdir strip w = (r, w') ->
    heap w' !! missing = Some s' ->
    forall n, n ∈ s -> n ∉ s' ->
      exists d, files w' !! output_path outdir strip n = Some (File d).
Proof.
  induction ms as [|m rest IH]; intros w r w' s s' Hs H Hs' n Hn Hn'.
  - injection H as _ <-. rewrite Hs in Hs'. injection Hs' as <-. contradiction.
  - destruct (extract_loop_step _ _ _ _ _ _ _ _ _ Hs H)
      as [(Hreg & H1)|[(Hreg & Hnin & He & _ & ->)|[(Hreg & Hnin & He & H1)
         |[(Hreg & Hin & _ & ->)|(Hreg & Hin & _ & [(He & _ & ->)|(He & H1)])]]]];
      eauto.
    + rewrite Hs in Hs'. injection Hs' as <-. contradiction.
    + rewrite Hs in Hs'. injection Hs' as <-. contradiction.
    + rewrite extracted_heap in Hs'. injection Hs' as <-.
      assert (n = name m) as ->.
      { destruct (decide (n = name m)) as [E|E]; [exact E|].
        exfalso. apply Hn'. apply elem_of_difference. split; [exact Hn|].
        now rewrite elem_of_singleton. }
      cbn. rewrite lookup_insert_eq. eauto.
    + destruct (decide (n = name m)) as [->|E].
      * eapply (extract_loop_keeps rest missing outdir strip _ _ _ _
                  (extracted_heap _ _ _ _ _ _) H1).
        cbn. apply lookup_insert_eq.
      * apply (IH _ _ _ _ _ (extracted_heap _ _ _ _ _ _) H1 Hs' n); [|exact Hn'].
        apply elem_of_difference. split; [exact Hn|].
        now rewrite elem_of_singleton.
Qed.

(** The loop asks nothing of the network and never sleeps. *)
Lemma extract_loop_frame ms missing outdir strip :
  forall w r w' s, heap w !! missing = Some s ->
    extract_loop ms missing outdir strip w = (r, w') ->
    trace w' = trace w /\ net w' = net w.
Proof.
  induction ms as [|m rest IH]; intros w r w' s Hs H.
  - injection H as _ <-. auto.
  - destruct (extract_loop_step _ _ _ _ _ _ _ _ _ Hs H)
      as [(Hreg & H1)|[(Hreg & Hn & He & _ & ->)|[(Hreg & Hn & He & H1)
         |[(Hreg & Hin & _ & ->)|(Hreg & Hin & _ & [(He & _ & ->)|(He & H1)])]]]];
      eauto.
    apply (IH _ _ _ _ (extracted_heap _ _ _ _ _ _)) in H1. exact H1.
Qed.

(** Creating directories keeps every path that leads to a regular file. *)
Lemma mkdir_parents_keeps_file (p q : path) (d : string) (w w1 : world) :
  mkdir_parents p w = (Ok tt, w1) ->
  resolve (files w) q = Some (File d) ->
  resolve (files w1) q = Some (File d).
Proof.
  unfold mkdir_parents. intros H Hq.
  destruct (mkdir_chain (prefixes p) (files w)) as [fs|e] eqn:E; [|discriminate].
  injection H as <-. apply mkdir_chain_spec in E as (I1 & I2 & I3).
  apply resolve_file_inv in Hq as (Hne & Hanc & Hl). cbn.
  destruct q as [|x q]; [done|]. unfold resolve.
  replace (forallb (dir_at fs) (prefixes (parent (x :: q)))) with true.
  - now apply I3.
  - symmetry. apply forallb_forall. intros a Ha.
    pose proof (proj1 (forallb_forall _ _) Hanc a Ha) as Hd.
    unfold dir_at in Hd |- *.
    destruct (decide (a ∈ prefixes p)) as [Hin|Hnin];
      rewrite list_elem_of_In in *.
    + now rewrite (I1 a Hin).
    + now rewrite (I2 a Hnin).
Qed.

Section ExtractorMore.

Variable tar_decode : bool -> string -> option (list member).

(** The course of a call of [extract_selected]. *)
Lemma extract_selected_inv tar_path members_to_get outdir strip w r w' wanted :
  heap w !! members_to_get = Some wanted ->
  extract_selected tar_decode tar_path members_to_get outdir strip w = (r, w') ->
  (exists e, r = Raise e /\ w' = w) \/
  exists w1, mkdir_parents outdir w = (Ok tt, w1) /\
    let l := fresh (dom (heap w)) in
    let w2 := with_heap (<[l := wanted]> (heap w)) w1 in
    (exists e, r = Raise e /\ w' = w2 /\
       exists e', open_tar tar_decode tar_path w2 = (Raise e', w2)) \/
    exists ms ru,
      open_tar tar_decode tar_path w2 = (Ok ms, w2) /\
      extract_loop ms l outdir strip w2 = (ru, w') /\
      ((ru = Ok tt /\ r = Ok l) \/ exists e, ru = Raise e /\ r = Raise e).
Proof.
  intros Hw H. unfold extract_selected in H.
  apply bind_inv in H as [([] & w1 & H1 & H)|(e & H1 & ->)].
  2:{ left. unfold mkdir_parents in H1.
      destruct (mkdir_chain _ _); [discriminate|]. injection H1 as _ <-. eauto. }
  right. exists w1. split; [exact H1|].
  apply mkdir_parents_frame in H1 as (Hh & _).
  apply bind_inv in H as [(s0 & w2 & H2 & H)|(e & H2 & _)]; [|discriminate].
  unfold read_set in H2. injection H2 as <- <-.
  apply bind_inv in H as [(l & w3 & H3 & H)|(e & H3 & _)]; [|discriminate].
  unfold new_set in H3. injection H3 as <- <-.
  rewrite Hh, Hw in H. cbn [default] in H. cbn zeta.
  apply bind_inv in H as [(ms & w4 & H4 & H)|(e & H4 & ->)];
    pose proof (open_tar_same _ _ _ _ _ H4) as ->.
  2:{ left. exists e. eauto. }
  right. exists ms.
  apply bind_inv in H as [([] & w5 & H5 & H)|(e & H5 & ->)].
  - unfold ret in H. injection H as <- <-. exists (Ok tt). eauto 6.
  - exists (Raise e). split; [exact H4|]. split; [exact H5|]. eauto.
Qed.

Lemma open_tar_eq tar_path data ms w :
  resolve (files w) tar_path = Some (File data) ->
  tar_decode (ends_with "xz" (path_suffix tar_path)) data = Some ms ->
  open_tar tar_decode tar_path w = (Ok ms, w).
Proof.
  intros Hr Hd. unfold open_tar, bind, read_file. now rewrite Hr, Hd.
Qed.

(** X3. When [extract_selected] returns on an archive that decodes to the
    members [ms], the returned set is exactly the wanted set minus the names
    of the regular members of the archive: a wanted member is reported
    missing if and only if the archive has no regular member of that name. *)
Theorem extract_selected_missing
  (tar_path : path) (members_to_get : nat) (outdir : path) (strip : Z)
  (w w' : world) (wanted : gset string) (l : nat)
  (data : string) (ms : list member) :
  heap w !! members_to_get = Some wanted ->
  resolve (files w) tar_path = Some (File data) ->
  tar_decode (ends_with "xz" (path_suffix tar_path)) data = Some ms ->
  extract_selected tar_decode tar_path members_to_get outdir strip w = (Ok l, w') ->
  heap w' !! l = Some (wanted ∖ regular_names ms).
Proof.
  intros Hw Hr Hd H.
  destruct (extract_selected_inv _ _ _ _ _ _ _ _ Hw H)
    as [(e & ? & _)|(w1 & Hm & Hc)]; [discriminate|].
  cbn zeta in Hc.
  destruct Hc as [(e & ? & _)|(ms' & ru & Ho & Hl & Hres)]; [discriminate|].
  destruct Hres as [(-> & [= ->])|(e & _ & ?)]; [|discriminate].
  rewrite (open_tar_eq tar_path data ms) in Ho.
  - injection Ho as <-.
    eapply extract_loop_missing; [|exact Hl]. cbn. apply lookup_insert_eq.
  - cbn. eapply mkdir_parents_keeps_file; eauto.
  - exact Hd.
Qed.

(** X4. When [extract_selected] returns, every wanted member that is not
    reported missing has a regular file at its output path. *)
Theorem extract_selected_found_on_disk
  (tar_path : path) (members_to_get : nat) (outdir : path) (strip : Z)
  (w w' : world) (wanted missing : gset string) (l : nat) :
  heap w !! members_to_get = Some wanted ->
  extract_selected tar_decode tar_path members_to_get outdir strip w = (Ok l, w') ->
  heap w' !! l = Some missing ->
  forall n, n ∈ wanted -> n ∉ missing ->
    exists d, files w' !! output_path outdir strip n = Some (File d).
Proof.
  intros Hw H Hl n Hn Hn'.
  destruct (extract_selected_inv _ _ _ _ _ _ _ _ Hw H)
    as [(e & ? & _)|(w1 & Hm & Hc)]; [discriminate|].
  cbn zeta in Hc.
  destruct Hc as [(e & ? & _)|(ms' & ru & Ho & Hloop & Hres)]; [discriminate|].
  destruct Hres as [(-> & [= ->])|(e & _ & ?)]; [|discriminate].
  eapply extract_loop_found; [|exact Hloop|exact Hl|exact Hn|exact Hn'].
  cbn. apply lookup_insert_eq.
Qed.

(** X5. Whatever [extract_selected] ends with, every regular file on disk
    afterwards was there before with the same content, or stands at the
    output path of a wanted member: nothing else is written. *)
Theorem extract_selected_writes_only_outputs
  (tar_path : path) (members_to_get : nat) (outdir : path) (strip : Z)
  (w w' : world) (r : result nat) (wanted : gset string) :
  heap w !! members_to_get = Some wanted ->
  extract_selected tar_decode tar_path members_to_get outdir strip w = (r, w') ->
  forall p d, files w' !! p = Some (File d) ->
    files w !! p = Some (File d) \/
    exists n, n ∈ wanted /\ p = output_path outdir strip n.
Proof.
  intros Hw H p d Hp.
  destruct (extract_selected_inv _ _ _ _ _ _ _ _ Hw H)
    as [(e & _ & ->)|(w1 & Hm & Hc)]; [now left|].
  apply mkdir_parents_ok in Hm as (_ & _ & Hf & _).
  cbn zeta in Hc.
  destruct Hc as [(e & _ & -> & _)|(ms' & ru & Ho & Hloop & _)].
  - left. apply Hf. exact Hp.
  - eapply extract_loop_files in Hloop as [Hq|Hq]; [| |cbn; apply lookup_insert_eq|exact Hp].
    + left. apply Hf. exact Hq.
    + now right.
Qed.

(** X6. Extraction stays off the network: whatever [extract_selected]
    ends with, it has made no request, has not slept, and has left the
    scripted answers of the network as they were. *)
Theorem extract_selected_offline
  (tar_path : path) (members_to_get : nat) (outdir : path) (strip : Z)
  (w w' : world) (r : result nat) (wanted : gset string) :
  heap w !! members_to_get = Some wanted ->
  extract_selected tar_decode tar_path members_to_get outdir strip w = (r, w') ->
  trace w' = trace w /\ net w' = net w.
Proof.
  intros Hw H.
  destruct (extract_selected_inv _ _ _ _ _ _ _ _ Hw H)
    as [(e & _ & ->)|(w1 & Hm & Hc)]; [auto|].
  apply mkdir_parents_frame in Hm as (_ & Hn & Ht).
  cbn zeta in Hc.
  destruct Hc as [(e & _ & -> & _)|(ms' & ru & Ho & Hloop & _)]; [auto|].
  eapply extract_loop_frame in Hloop as [Ht' Hn'];
    [|cbn; apply lookup_insert_eq].
  cbn in Ht', Hn'. split; congruence.
Qed.

End ExtractorMore.

(** ** The fetcher, case by case *)

Lemma write_file_success p d w :
  resolve (files w) (parent p) = Some Dir ->
  resolve (files w) p ≠ Some Dir ->
  write_file p d w = (Ok tt, with_files (<[p := File d]> (files w)) w).
Proof.
  intros Hpar Hp. unfold write_file. rewrite Hpar.
  destruct (resolve (files w) p) as [[x|]|]; try reflexivity. contradiction.
Qed.

Lemma replace_file_success src dst d w :
  resolve (files w) src = Some (File d) ->
  resolve (files w) (parent dst) = Some Dir ->
  resolve (files w) dst ≠ Some Dir ->
  replace_file src dst w
  = (Ok tt, with_files (<[dst := File d]> (delete src (files w))) w).
Proof.
  intros Hs Hpar Hd. unfold replace_file. rewrite Hs, Hpar.
  destruct (resolve (files w) dst) as [[x|]|]; try reflexivity. contradiction.
Qed.

Lemma mkdir_parents_of_dir (p : path) (w : world) :
  resolve (files w) p = Some Dir -> mkdir_parents p w = (Ok tt, w).
Proof.
  intros H. apply resolve_dir_elim in H. unfold mkdir_parents.
  rewrite (mkdir_chain_id _ _ H). now rewrite with_files_id.
Qed.

Lemma resolve_parent_of_dir (fs : gmap path node) (p : path) :
  resolve fs p = Some Dir -> resolve fs (parent p) = Some Dir.
Proof.
  intros H. destruct (decide (p = [])) as [->|Hp]; [exact H|].
  apply resolve_dir_elim in H. rewrite (prefixes_parent p Hp), forallb_app in H.
  apply andb_prop in H as [H _]. apply resolve_dir_intro.
  intros q Hq. pose proof (proj1 (forallb_forall _ _) H q Hq) as Hd.
  unfold dir_at in Hd. destruct (fs !! q) as [[x|]|]; (reflexivity || discriminate).
Qed.

(** Writing the temporary file and renaming it, when nothing is in the
    way. *)
Lemma write_and_replace_success (out : path) (data : string) (w : world) :
  out ≠ [] ->
  resolve (files w) (parent out) = Some Dir ->
  resolve (files w) out ≠ Some Dir ->
  resolve (files w) (part_path out) ≠ Some Dir ->
  (do write_file (part_path out) data then replace_file (part_path out) out) w
  = (Ok tt, with_files (<[out := File data]> (delete (part_path out) (files w))) w).
Proof.
  intros Hout Hpar Hd Ht. unfold bind.
  rewrite write_file_success; [|now rewrite parent_part_path|exact Ht].
  assert (Hne : part_path out ≠ out) by apply part_path_neq.
  assert (Hlen : length (part_path out) = length out)
    by now apply part_path_length.
  rewrite (replace_file_success _ _ data).
  - cbn. now rewrite delete_insert_eq.
  - cbn. rewrite resolve_child.
    + apply lookup_insert_eq.
    + intros E. rewrite E in Hlen. destruct out; [done | discriminate].
    + rewrite parent_part_path, resolve_parent_insert_part by exact Hout.
      exact Hpar.
  - cbn. now rewrite resolve_parent_insert_part.
  - cbn. rewrite resolve_insert_ne; [exact Hd | lia | exact Hne].
Qed.

Lemma urlopen_answer url body rest w :
  net w !! url = Some (Some body :: rest) ->
  urlopen url w
  = (Ok body, with_net (<[url := rest]> (net w)) (log (Request url) w)).
Proof. intros H. unfold urlopen. now rewrite H. Qed.

Lemma urlopen_no_answer url w :
  never_answers (net w !! url) ->
  exists w1, urlopen url w = (Raise URLError, w1) /\
    files w1 = files w /\ heap w1 = heap w /\
    trace w1 = (trace w ++ [Request url])%list /\
    never_answers (net w1 !! url).
Proof.
  intros H. unfold urlopen.
  destruct (net w !! url) as [[|[b|] rest]|] eqn:E.
  - eexists. split; [reflexivity|]. cbn. now rewrite E.
  - exfalso. simpl in H. apply Forall_cons in H as [? _]. discriminate.
  - eexists. split; [reflexivity|]. cbn. rewrite lookup_insert_eq.
    simpl in H. apply Forall_cons in H as [_ H]. auto.
  - eexists. split; [reflexivity|]. cbn. now rewrite E.
Qed.

Lemma mkdir_chain_exn (qs : list path) :
  forall fs e, mkdir_chain qs fs = Raise e -> e = FileExistsError.
Proof.
  induction qs as [|q qs IH]; intros fs e H; [discriminate|].
  simpl in H. destruct (fs !! q) as [[x|]|]; [congruence | eauto | eauto].
Qed.

Lemma mkdir_parents_exn p w e w' :
  mkdir_parents p w = (Raise e, w') -> e = FileExistsError /\ w' = w.
Proof.
  unfold mkdir_parents. intros H.
  destruct (mkdir_chain _ _) eqn:E; [discriminate|].
  injection H as <- <-. split; [|reflexivity]. eapply mkdir_chain_exn; eauto.
Qed.

Section FetcherMore.

Variable md5_digest : string -> string.

(** X7. Without a checksum, in a world where the parent directory exists
    and neither the destination nor its temporary sibling is a directory,
    a first request that is answered ends the call: it returns
    ["downloaded"] after exactly one request and no sleep, the destination
    holds the body of the answer, and the temporary file does not exist. *)
Theorem download_first_answer
  (url : string) (out : path) (expected_md5 : option string) (attempts : Z)
  (body : string) (rest : list (option string)) (w : world) :
  0 < attempts ->
  truthy expected_md5 = false ->
  out ≠ [] ->
  resolve (files w) (parent out) = Some Dir ->
  resolve (files w) out ≠ Some Dir ->
  resolve (files w) (part_path out) ≠ Some Dir ->
  net w !! url = Some (Some body :: rest) ->
  download_with_retry md5_digest url out expected_md5 attempts w
  = (Ok "downloaded",
     World (<[out := File body]> (delete (part_path out) (files w)))
           (<[url := rest]> (net w)) (heap w)
           (trace w ++ [Request url])%list).
Proof.
  intros Hpos Ht Hout Hpar Hd Htmp Hnet.
  unfold download_with_retry, bind at 1.
  rewrite (mkdir_parents_of_dir _ _ Hpar).
  destruct (Z.to_nat attempts) as [|n] eqn:En; [lia|].
  cbn [retry_loop]. unfold try_except, attempt.
  rewrite Ht. unfold bind at 1. unfold ret at 1.
  unfold bind at 1. rewrite (urlopen_answer _ _ _ _ Hnet).
  unfold bind at 1. rewrite with_part_suffix_eq.
  destruct out as [|x out']; [done|]. set (out := x :: out') in *.
  pose proof (write_and_replace_success out body
    (with_net (<[url := rest]> (net w)) (log (Request url) w))
    Hout Hpar Hd Htmp) as Hwr.
  unfold bind in Hwr |- *.
  destruct (write_file (part_path out) body _) as [[[]|e] w2] eqn:Ew;
    [|discriminate].
  rewrite Hwr. unfold ret. destruct w. reflexivity.
Qed.

Lemma write_file_exn p d w e w' :
  write_file p d w = (Raise e, w') -> forall msg, e ≠ ValueError msg.
Proof. unfold write_file. intros H. repeat case_match; simplify_eq; done. Qed.

Lemma replace_file_exn src dst w e w' :
  replace_file src dst w = (Raise e, w') -> forall msg, e ≠ ValueError msg.
Proof. unfold replace_file. intros H. repeat case_match; simplify_eq; done. Qed.

Lemma md5_ok_exn p expected w e w' :
  md5_ok md5_digest p expected w = (Raise e, w') -> e = IsADirectoryError.
Proof.
  rewrite md5_ok_eq. intros H. repeat case_match; simplify_eq; done.
Qed.

Lemma md5_ok_false_inv p e w w' :
  e ≠ "" ->
  md5_ok md5_digest p (Some e) w = (Ok false, w') ->
  forall d, resolve (files w) p = Some (File d) ->
    eq_nocase (hexdigest md5_digest d) e = false.
Proof.
  intros He H d Hd. rewrite md5_ok_eq, Hd, (eqb_empty_false _ He) in H.
  rewrite eq_nocase_hexdigest. congruence.
Qed.

(** An attempt that ends on a checksum mismatch has put the mismatching
    file at the destination. *)
Lemma attempt_mismatch url out expected_md5 w w' :
  attempt md5_digest url out expected_md5 w
  = (Raise (ValueError "md5 mismatch"), w') ->
  exists e d, expected_md5 = Some e /\ e ≠ "" /\
    resolve (files w') out = Some (File d) /\
    eq_nocase (hexdigest md5_digest d) e = false.
Proof.
  unfold attempt. intros H.
  apply bind_inv in H as [(c & w0 & Hc & H)|(e & Hc & He)];
    rewrite truthy_md5_ok in Hc.
  2:{ apply md5_ok_exn in Hc. congruence. }
  destruct c; [discriminate|].
  apply bind_inv in H as [(data & w1 & Hu & H)|(e & Hu & He)].
  2:{ unfold urlopen in Hu. repeat case_match; simplify_eq. }
  apply bind_inv in H as [(tmp & w1' & Hp & H)|(e & Hp & He)];
    rewrite with_part_suffix_eq in Hp.
  2:{ destruct out; simplify_eq. }
  destruct out as [|x out']; [discriminate|]. injection Hp as <- <-.
  set (out := x :: out') in *.
  apply bind_inv in H as [([] & w2 & Hw & H)|(e & Hw & He)].
  2:{ apply write_file_exn with (msg := "md5 mismatch") in Hw. congruence. }
  apply bind_inv in H as [([] & w3 & Hr & H)|(e & Hr & He)].
  2:{ apply replace_file_exn with (msg := "md5 mismatch") in Hr. congruence. }
  destruct (write_then_replace _ _ _ _ _ Hw Hr) as [Hpar Hf].
  assert (Hres : resolve (files w3) out = Some (File data)).
  { rewrite resolve_child; [rewrite Hf; apply lookup_insert_eq | discriminate |].
    rewrite Hf, resolve_parent_insert_out, resolve_parent_delete_part
      by discriminate. exact Hpar. }
  apply bind_inv in H as [(bad & w4 & Hb & H)|(e & Hb & He)].
  - destruct (truthy expected_md5) eqn:Ht.
    + apply bind_inv in Hb as [(good & w5 & Hg & Hb)|(e & _ & ?)];
        [|discriminate].
      unfold ret in Hb. injection Hb as <- <-.
      pose proof (md5_ok_pure md5_digest out expected_md5 w3) as Hs.
      rewrite Hg in Hs. simpl in Hs. subst w5.
      destruct good; simpl in H; unfold raise, ret in H; [discriminate|].
      injection H as <-.
      destruct expected_md5 as [e|]; [|discriminate]. simpl in Ht.
      assert (He : e ≠ "") by (intros ->; discriminate).
      exists e, data. repeat split; auto.
      eapply md5_ok_false_inv; eauto.
    + unfold ret in Hb. injection Hb as <- <-. discriminate.
  - destruct (truthy expected_md5); [|discriminate].
    apply bind_inv in Hb as [(good & w5 & Hg & Hb)|(e' & Hg & He')];
      [discriminate|].
    apply md5_ok_exn in Hg. congruence.
Qed.

(** X8. A call that ends by raising the checksum mismatch leaves the
    mismatching download at the destination: the destination then holds a
    regular file whose digest is not the expected one. *)
Theorem download_mismatch_leaves_file
  (url : string) (out : path) (expected_md5 : option string) (attempts : Z)
  (w w' : world) :
  download_with_retry md5_digest url out expected_md5 attempts w
  = (Raise (ValueError "md5 mismatch"), w') ->
  exists e d, expected_md5 = Some e /\ e ≠ "" /\
    resolve (files w') out = Some (File d) /\
    eq_nocase (hexdigest md5_digest d) e = false.
Proof.
  intros H. unfold download_with_retry in H.
  apply bind_inv in H as [([] & w1 & Hm & H)|(e & Hm & He)].
  2:{ apply mkdir_parents_exn in Hm as [-> _]. discriminate. }
  destruct (Z.to_nat attempts) as [|n] eqn:En; [cbn in H; discriminate|].
  apply (retry_loop_rule md5_digest url out expected_md5 attempts
    (fun _ => True)
    (fun r w' => r = Raise (ValueError "md5 mismatch") ->
       exists e d, expected_md5 = Some e /\ e ≠ "" /\
         resolve (files w') out = Some (File d) /\
         eq_nocase (hexdigest md5_digest d) e = false)) in H; auto; try lia.
  - intros w0 e w0' _ Ha. split; [exact I|]. intros [= ->].
    now apply attempt_mismatch in Ha.
  - intros w0 s w0' _ _. discriminate.
Qed.

(** An attempt whose request is not answered. *)
Lemma attempt_no_answer url out expected_md5 w :
  truthy expected_md5 = false \/ resolve (files w) out = None ->
  never_answers (net w !! url) ->
  exists w1, attempt md5_digest url out expected_md5 w = (Raise URLError, w1) /\
    files w1 = files w /\
    trace w1 = (trace w ++ [Request url])%list /\
    never_answers (net w1 !! url).
Proof.
  intros Hpre Hnet. unfold attempt, bind at 1.
  rewrite truthy_md5_ok.
  assert (Hc : md5_ok md5_digest out expected_md5 w = (Ok false, w))
    by (destruct Hpre; [now apply md5_ok_falsy | now apply md5_ok_absent]).
  rewrite Hc. unfold bind at 1.
  destruct (urlopen_no_answer url w Hnet) as (w1 & Hu & Hf & _ & Ht & Hn).
  rewrite Hu. eauto.
Qed.

Lemma retry_loop_no_answer url out expected_md5 attempts :
  forall n i w,
    Z.of_nat n = attempts - i -> (0 < n)%nat ->
    truthy expected_md5 = false \/ resolve (files w) out = None ->
    never_answers (net w !! url) ->
    exists w' evs,
      retry_loop md5_digest n i attempts url out expected_md5 w
      = (Raise URLError, w') /\
      files w' = files w /\
      trace w' = (trace w ++ evs)%list /\
      requests evs = n /\ sleeps evs = backoff i (n - 1).
Proof.
  induction n as [|n IH]; intros i w Hn Hpos Hpre Hnet; [lia|].
  cbn [retry_loop]. unfold try_except.
  destruct (attempt_no_answer url out expected_md5 w Hpre Hnet)
    as (w1 & Ha & Hf & Ht & Hn1).
  rewrite Ha. destruct (i =? attempts - 1) eqn:Ei.
  - apply Z.eqb_eq in Ei. assert (n = 0%nat) as -> by lia.
    exists w1, [Request url]. repeat split; auto.
  - apply Z.eqb_neq in Ei. unfold bind, sleep.
    destruct (IH (i + 1) (log (Sleep (2 ^ i)) w1)) as (w' & evs & Hl & Hf' & Ht' & Hr & Hs).
    + lia.
    + lia.
    + cbn. rewrite Hf. exact Hpre.
    + exact Hn1.
    + exists w', (Request url :: Sleep (2 ^ i) :: evs).
      split; [exact Hl|]. split; [cbn in Hf'; congruence|].
      split.
      { rewrite Ht'. cbn. rewrite Ht, <- !app_assoc. reflexivity. }
      split; [simpl; now rewrite Hr|].
      cbn [sleeps]. rewrite Hs. destruct n as [|n]; [lia|].
      replace (S (S n) - 1)%nat with (S n) by lia.
      replace (S n - 1)%nat with n by lia.
      now rewrite backoff_cons.
Qed.

(** X9. When the parent directory exists, there is no file to verify and
    no request is answered, a call with [attempts >= 1] makes exactly
    [attempts] requests, sleeps [2 ** 0], ..., [2 ** (attempts - 2)] between
    them, changes no file, and raises the error of the last request. *)
Theorem download_no_answer
  (url : string) (out : path) (expected_md5 : option string) (attempts : Z)
  (w : world) :
  0 < attempts ->
  resolve (files w) (parent out) = Some Dir ->
  truthy expected_md5 = false \/ resolve (files w) out = None ->
  never_answers (net w !! url) ->
  exists w' evs,
    download_with_retry md5_digest url out expected_md5 attempts w
    = (Raise URLError, w') /\
    files w' = files w /\
    trace w' = (trace w ++ evs)%list /\
    requests evs = Z.to_nat attempts /\
    sleeps evs = backoff 0 (Z.to_nat attempts - 1).
Proof.
  intros Hpos Hpar Hpre Hnet. unfold download_with_retry, bind.
  rewrite (mkdir_parents_of_dir _ _ Hpar).
  apply retry_loop_no_answer; auto; lia.
Qed.

(** The loop on a destination that is a directory, with a checksum. *)
Lemma retry_loop_directory url out expected_md5 attempts :
  forall n i w,
    Z.of_nat n = attempts - i -> (0 < n)%nat ->
    truthy expected_md5 = true ->
    resolve (files w) out = Some Dir ->
    retry_loop md5_digest n i attempts url out expected_md5 w
    = (Raise IsADirectoryError,
       World (files w) (net w) (heap w)
             (trace w ++ List.map Sleep (backoff i (n - 1)))%list).
Proof.
  induction n as [|n IH]; intros i w Hn Hpos Ht Hd; [lia|].
  cbn [retry_loop]. unfold try_except, attempt, bind at 1.
  rewrite truthy_md5_ok.
  assert (Hc : md5_ok md5_digest out expected_md5 w = (Raise IsADirectoryError, w)).
  { rewrite md5_ok_eq, Hd. destruct expected_md5 as [e|]; [|discriminate].
    simpl in Ht. now destruct (String.eqb e ""). }
  rewrite Hc. destruct (i =? attempts - 1) eqn:Ei.
  - apply Z.eqb_eq in Ei. assert (n = 0%nat) as -> by lia.
    unfold raise. simpl. rewrite app_nil_r. now destruct w.
  - apply Z.eqb_neq in Ei. unfold bind, sleep.
    rewrite IH; [|lia|lia|exact Ht|exact Hd].
    destruct n as [|n]; [lia|].
    replace (S (S n) - 1)%nat with (S n) by lia.
    replace (S n - 1)%nat with n by lia.
    rewrite backoff_cons. cbn [List.map log files net heap trace].
    rewrite <- app_assoc. reflexivity.
Qed.

(** X10. With a checksum and a destination that is a directory, a call
    with [attempts >= 1] never asks the network: every attempt fails on
    reading the directory, the call sleeps through the delays [2 ** 0], ...,
    [2 ** (attempts - 2)], changes nothing else, and raises
    [IsADirectoryError]. *)
Theorem download_onto_directory
  (url : string) (out : path) (expected_md5 : option string) (attempts : Z)
  (w : world) :
  0 < attempts ->
  truthy expected_md5 = true ->
  resolve (files w) out = Some Dir ->
  download_with_retry md5_digest url out expected_md5 attempts w
  = (Raise IsADirectoryError,
     World (files w) (net w) (heap w)
           (trace w ++ List.map Sleep (backoff 0 (Z.to_nat attempts - 1)))%list).
Proof.
  intros Hpos Ht Hd. unfold download_with_retry, bind.
  rewrite (mkdir_parents_of_dir _ _ (resolve_parent_of_dir _ _ Hd)).
  apply retry_loop_directory; auto; lia.
Qed.

End FetcherMore.

(** ** The plan and its sets *)

Lemma plan_get_in (key : string * string) (plan : plan_t) (l : nat) :
  plan_get key plan = Some l -> In (key, l) plan.
Proof.
  induction plan as [|[k l0] plan IH]; simpl; [discriminate|].
  case_bool_decide as Hk.
  - intros [= ->]. subst. now left.
  - intros H. right. auto.
Qed.

Lemma in_plan_fst (k : string * string) (l : nat) (plan : plan_t) :
  In (k, l) plan -> In k (List.map fst plan).
Proof. intros H. apply in_map_iff. exists (k, l). auto. Qed.

Lemma in_plan_snd (k : string * string) (l : nat) (plan : plan_t) :
  In (k, l) plan -> In l (List.map snd plan).
Proof. intros H. apply in_map_iff. exists (k, l). auto. Qed.

Lemma NoDup_fst_inj (plan : plan_t) k l l' :
  NoDup (List.map fst plan) -> In (k, l) plan -> In (k, l') plan -> l = l'.
Proof.
  induction plan as [|[k0 l0] plan IH]; simpl; [tauto|].
  intros Hnd [H1|H1] [H2|H2]; apply NoDup_cons in Hnd as [Hn Hnd].
  - congruence.
  - injection H1 as -> ->. exfalso. apply Hn. apply list_elem_of_In.
    eapply in_plan_fst; eauto.
  - injection H2 as -> ->. exfalso. apply Hn. apply list_elem_of_In.
    eapply in_plan_fst; eauto.
  - eauto.
Qed.

Lemma NoDup_snd_inj (plan : plan_t) k k' l :
  NoDup (List.map snd plan) -> In (k, l) plan -> In (k', l) plan -> k = k'.
Proof.
  induction plan as [|[k0 l0] plan IH]; simpl; [tauto|].
  intros Hnd [H1|H1] [H2|H2]; apply NoDup_cons in Hnd as [Hn Hnd].
  - congruence.
  - injection H1 as -> ->. exfalso. apply Hn. apply list_elem_of_In.
    eapply in_plan_snd; eauto.
  - injection H2 as -> ->. exfalso. apply Hn. apply list_elem_of_In.
    eapply in_plan_snd; eauto.
  - eauto.
Qed.

Lemma plan_inv_ext plan h (S S' : string * string -> gset string) :
  (forall k, S k = S' k) -> plan_inv plan h S -> plan_inv plan h S'.
Proof.
  intros E (I1 & I2 & I3 & I4). repeat split; auto.
  - intros k l Hin. rewrite <- E. auto.
  - intros k Hk. rewrite <- E. auto.
Qed.

(** One row: the set of its key gains its member path. *)
Lemma plan_step_inv (f : row) (plan : plan_t) (w : world)
  (S : string * string -> gset string) :
  plan_inv plan (heap w) S ->
  exists lp w2,
    (let* lp := setdefault (row_key f) plan in
     do set_add (fst lp) (filename_in_tar_xz f) then ret lp) w = (Ok lp, w2) /\
    files w2 = files w /\ net w2 = net w /\ trace w2 = trace w /\
    (forall k, In k (List.map fst (snd lp)) <->
       In k (List.map fst plan) \/ k = row_key f) /\
    plan_inv (snd lp) (heap w2)
      (fun k => S k ∪ (if bool_decide (row_key f = k)
                       then {[ filename_in_tar_xz f ]} else ∅)).
Proof.
  intros (I1 & I2 & I3 & I4).
  set (k0 := row_key f). set (x := filename_in_tar_xz f).
  set (lf := fresh (dom (heap w))).
  assert (Hfresh : forall k l, In (k, l) plan -> l ≠ lf).
  { intros k l Hin ->. apply (is_fresh (dom (heap w))). fold lf.
    apply elem_of_dom. rewrite (I3 _ _ Hin). eauto. }
  unfold bind at 1. unfold setdefault, bind at 1, new_set. fold lf.
  destruct (plan_get k0 plan) as [l|] eqn:Eg.
  - pose proof (plan_get_in _ _ _ Eg) as Hin.
    eexists _, _. split; [reflexivity|]. cbn.
    split; [reflexivity|]. split; [reflexivity|]. split; [reflexivity|].
    split; [|split; [exact I1|split; [exact I2|split]]].
    + intros k. split; [now left|]. intros [H| ->]; [exact H|].
      eapply in_plan_fst; eauto.
    + intros k l' Hin'.
      destruct (decide (l' = l)) as [->|Hne].
      * rewrite lookup_insert_eq.
        rewrite lookup_insert_ne by (apply not_eq_sym; eapply Hfresh; eauto).
        rewrite (I3 _ _ Hin). cbn.
        pose proof (NoDup_snd_inj _ _ _ _ I2 Hin Hin') as <-.
        rewrite bool_decide_eq_true_2 by reflexivity.
        f_equal. apply union_comm_L.
      * rewrite lookup_insert_ne by congruence.
        rewrite lookup_insert_ne by (apply not_eq_sym; eapply Hfresh; eauto).
        rewrite (I3 _ _ Hin').
        rewrite bool_decide_eq_false_2.
        -- now rewrite union_empty_r_L.
        -- intros E. apply Hne. fold k0 in E. subst k.
           eapply NoDup_fst_inj; eauto.
    + intros k Hk. rewrite (I4 _ Hk).
      rewrite bool_decide_eq_false_2; [apply union_empty_l_L|].
      intros E. apply Hk. fold k0 in E. subst k. eapply in_plan_fst; eauto.
  - apply plan_get_none in Eg.
    eexists _, _. split; [reflexivity|]. cbn.
    split; [reflexivity|]. split; [reflexivity|]. split; [reflexivity|].
    split; [|split; [|split; [|split]]].
    + intros k. rewrite List.map_app. split.
      * intros H. apply in_app_or in H as [H|[<-|[]]]; auto.
      * intros [H| ->]; apply in_or_app; [now left|]. right. now left.
    + rewrite List.map_app. simpl. apply NoDup_app. split; [exact I1|].
      split; [|apply NoDup_singleton].
      intros k Hk Hk'. apply list_elem_of_In in Hk.
      apply list_elem_of_singleton in Hk'. subst. contradiction.
    + rewrite List.map_app. simpl. apply NoDup_app. split; [exact I2|].
      split; [|apply NoDup_singleton].
      intros l Hl Hl'. apply list_elem_of_In in Hl.
      apply list_elem_of_singleton in Hl'. subst.
      apply in_map_iff in Hl as ([k l] & Hs & Hin). simpl in Hs. subst l.
      now apply (Hfresh _ _ Hin).
    + intros k l Hin. apply in_app_or in Hin as [Hin|[[= <- <-]|[]]].
      * rewrite lookup_insert_ne by (apply not_eq_sym; eapply Hfresh; eauto).
        rewrite lookup_insert_ne by (apply not_eq_sym; eapply Hfresh; eauto).
        rewrite (I3 _ _ Hin).
        rewrite bool_decide_eq_false_2; [now rewrite union_empty_r_L|].
        intros E. apply Eg. fold k0 in E. subst k. eapply in_plan_fst; eauto.
      * rewrite !lookup_insert_eq. cbn.
        rewrite bool_decide_eq_true_2 by reflexivity.
        rewrite (I4 _ Eg). apply f_equal.
        rewrite union_empty_r_L, union_empty_l_L. reflexivity.
    + intros k Hk. rewrite List.map_app in Hk.
      assert (Hk1 : ~ In k (List.map fst plan))
        by (intros H; apply Hk; apply in_or_app; now left).
      assert (Hk2 : k0 ≠ k)
        by (intros ->; apply Hk; apply in_or_app; right; now left).
      rewrite (I4 _ Hk1), bool_decide_eq_false_2 by exact Hk2.
      apply union_empty_l_L.
Qed.

Lemma build_plan_cons (has_md5 : bool) (f : row) (rest : list row)
  (plan : plan_t) (md5_map : gmap string string) (w : world) :
  build_plan has_md5 (f :: rest) plan md5_map w
  = match (let* lp := setdefault (row_key f) plan in
           do set_add (fst lp) (filename_in_tar_xz f) then ret lp) w with
    | (Ok lp, w2) =>
        build_plan has_md5 rest (snd lp)
          (if has_md5 && negb (String.eqb (tar_xz_md5 f) "")
           then <[tar_xz f := tar_xz_md5 f]> md5_map else md5_map) w2
    | (Raise e, w2) => (Raise e, w2)
    end.
Proof.
  cbn [build_plan]. fold (row_key f). unfold bind.
  destruct (setdefault (row_key f) plan w) as [[lp|e] w1]; reflexivity.
Qed.

(** The whole loop: no error, no effect but on the heap, the keys of the
    rows, and the sets of their member paths. *)
Lemma build_plan_run (has_md5 : bool) (rows : list row) :
  forall plan md5_map w S,
    plan_inv plan (heap w) S ->
    exists plan' w',
      build_plan has_md5 rows plan md5_map w
      = (Ok (plan', md5_fold has_md5 rows md5_map), w') /\
      files w' = files w /\ net w' = net w /\ trace w' = trace w /\
      (forall k, In k (List.map fst plan') <->
         In k (List.map fst plan) \/ exists f, In f rows /\ row_key f = k) /\
      plan_inv plan' (heap w') (fun k => S k ∪ members_of k rows).
Proof.
  induction rows as [|f rows IH]; intros plan md5_map w S Hinv.
  - exists plan, w. split; [reflexivity|].
    split; [reflexivity|]. split; [reflexivity|]. split; [reflexivity|].
    split.
    + intros k. split; [auto|]. intros [H|(f & [] & _)]. exact H.
    + eapply plan_inv_ext; [|exact Hinv]. intros k. simpl.
      now rewrite union_empty_r_L.
  - rewrite build_plan_cons.
    destruct (plan_step_inv f plan w S Hinv)
      as (lp & w2 & Hs & Hf & Hn & Ht & Hk & Hinv2).
    rewrite Hs.
    destruct (IH (snd lp)
                (if has_md5 && negb (String.eqb (tar_xz_md5 f) "")
                 then <[tar_xz f := tar_xz_md5 f]> md5_map else md5_map)
                w2 _ Hinv2)
      as (plan' & w' & Hb & Hf' & Hn' & Ht' & Hk' & Hinv').
    exists plan', w'. split; [exact Hb|].
    split; [congruence|]. split; [congruence|]. split; [congruence|]. split.
    + intros k. rewrite Hk', Hk. split.
      * intros [[H| ->]|(g & Hg & <-)]; [now left| |].
        -- right. exists f. split; [now left | reflexivity].
        -- right. exists g. split; [now right | reflexivity].
      * intros [H|(g & [<-|Hg] & <-)]; [left; now left|left; now right|].
        right. exists g. auto.
    + eapply plan_inv_ext; [|exact Hinv']. intros k. simpl.
      now rewrite union_assoc_L.
Qed.

Lemma plan_inv_nil (h : gmap nat (gset string)) : plan_inv [] h (fun _ => ∅).
Proof. repeat split; simpl; try constructor; tauto. Qed.

Lemma members_of_in (f : row) (rows : list row) :
  In f rows -> filename_in_tar_xz f ∈ members_of (row_key f) rows.
Proof.
  induction rows as [|g rows IH]; simpl; [tauto|].
  intros [->|H].
  - rewrite bool_decide_eq_true_2 by reflexivity.
    apply elem_of_union_l. now apply elem_of_singleton.
  - apply elem_of_union_r. auto.
Qed.



Lemma md5_fold_spec (has_md5 : bool) (rows : list row) :
  forall (m : gmap string string) (tar : string),
    (forall v, md5_fold has_md5 rows m !! tar = Some v ->
       m !! tar = Some v \/
       (has_md5 = true /\ v ≠ "" /\
        exists f, In f rows /\ tar_xz f = tar /\ tar_xz_md5 f = v)) /\
    (is_Some (m !! tar) \/
     (has_md5 = true /\
      exists f, In f rows /\ tar_xz f = tar /\ tar_xz_md5 f ≠ "") ->
     is_Some (md5_fold has_md5 rows m !! tar)).
Proof.
  induction rows as [|f rows IH]; intros m tar; simpl.
  - split; [auto|]. intros [H|(_ & g & [] & _)]. exact H.
  - destruct (IH (if has_md5 && negb (String.eqb (tar_xz_md5 f) "")
                  then <[tar_xz f := tar_xz_md5 f]> m else m) tar)
      as [IH1 IH2].
    destruct has_md5; simpl in *.
    + destruct (String.eqb (tar_xz_md5 f) "") eqn:Ee; simpl in *.
      * apply String.eqb_eq in Ee. split.
        -- intros v Hv. destruct (IH1 v Hv) as [H|(_ & Hne & g & Hg & Ht & Hm)];
             [now left|]. right. repeat split; auto. exists g. auto.
        -- intros [H|(_ & g & [<-|Hg] & Ht & Hm)]; apply IH2; auto.
           ++ contradiction.
           ++ right. split; [reflexivity|]. exists g. auto.
      * apply String.eqb_neq in Ee. split.
        -- intros v Hv. destruct (IH1 v Hv) as [H|(_ & Hne & g & Hg & Ht & Hm)].
           ++ destruct (decide (tar_xz f = tar)) as [E|E].
              ** subst tar. rewrite lookup_insert_eq in H. injection H as <-.
                 right. repeat split; auto. exists f. auto.
              ** rewrite lookup_insert_ne in H by exact E. now left.
           ++ right. repeat split; auto. exists g. auto.
        -- intros [H|(_ & g & [<-|Hg] & Ht & Hm)]; apply IH2.
           ++ left. destruct (decide (tar_xz f = tar)) as [E|E].
              ** subst tar. rewrite lookup_insert_eq. eauto.
              ** now rewrite lookup_insert_ne.
           ++ left. subst tar. rewrite lookup_insert_eq. eauto.
           ++ right. split; [reflexivity|]. exists g. auto.
    + split.
      * intros v Hv. destruct (IH1 v Hv) as [H|(? & _)]; [now left|discriminate].
      * intros [H|(? & _)]; [|discriminate]. apply IH2. now left.
Qed.

(** X12. The checksums of the plan: an archive name has a checksum in
    [md5_map] if and only if the table has the checksum column and some row
    of that archive has a non-empty value in it; the checksum kept is such a
    value. Without the column no archive is ever verified. *)
Theorem build_plan_checksums (has_md5 : bool) (rows : list row) (w : world) :
  exists plan md5_map w',
    build_plan has_md5 rows [] ∅ w = (Ok (plan, md5_map), w') /\
    forall tar,
      (forall v, md5_map !! tar = Some v ->
         has_md5 = true /\ v ≠ "" /\
         exists f, In f rows /\ tar_xz f = tar /\ tar_xz_md5 f = v) /\
      ((has_md5 = true /\
        exists f, In f rows /\ tar_xz f = tar /\ tar_xz_md5 f ≠ "") ->
       is_Some (md5_map !! tar)).
Proof.
  destruct (build_plan_run has_md5 rows [] ∅ w (fun _ => ∅) (plan_inv_nil _))
    as (plan & w' & Hb & _).
  exists plan, (md5_fold has_md5 rows ∅), w'. split; [exact Hb|].
  intros tar. destruct (md5_fold_spec has_md5 rows ∅ tar) as [H1 H2]. split.
  - intros v Hv. destruct (H1 v Hv) as [H|H]; [|exact H].
    rewrite lookup_empty in H. discriminate.
  - intros H. apply H2. now right.
Qed.

(** ** A dry run *)

Section DryRun.

Variable md5_digest : string -> string.
Variable tar_decode : bool -> string -> option (list member).


End DryRun.

(** ** The metadata table *)

(** X14. [is_gzip] holds exactly of the data that start with the two bytes
    [1f 8b]; data of fewer than two bytes are never taken for gzip. *)
Theorem is_gzip_magic (data : string) :
  is_gzip data = true <-> exists rest, data = (gzip_magic ++ rest)%string.
Proof.
  unfold is_gzip. rewrite String.eqb_eq. unfold gzip_magic.
  destruct data as [|a [|b rest]]; cbn [substring String.append].
  - split; [discriminate | intros (r & Hr); discriminate].
  - split; [discriminate | intros (r & Hr); discriminate].
  - replace (substring 0 0 rest) with EmptyString
      by (destruct rest; reflexivity).
    split.
    + intros H. injection H as -> ->. exists rest. reflexivity.
    + intros (r & Hr). injection Hr as -> -> _. reflexivity.
Qed.

(** The map built from the columns, from index [k] on, over [m]. *)
Lemma build_colmap_spec (cols : list string) :
  forall (k : nat) (m : gmap string nat) (name : string) (v : nat),
    build_colmap cols k m !! name = Some v <->
    (exists i, v = (k + i)%nat /\ cols !! i = Some name /\
       forall j, (i < j)%nat -> cols !! j ≠ Some name) \/
    ((forall j, cols !! j ≠ Some name) /\ m !! name = Some v).
Proof.
  induction cols as [|c cs IH]; intros k m name v.
  - simpl. split.
    + intros H. right. split; [intros j; discriminate | exact H].
    + intros [(i & _ & Hi & _)|[_ H]]; [discriminate | exact H].
  - cbn [build_colmap]. rewrite IH. split.
    + intros [(i & -> & Hi & Hlast)|[Hnone Hm]].
      * left. exists (S i). split; [lia|]. split; [exact Hi|].
        intros [|j] Hj; [lia|]. apply Hlast. lia.
      * destruct (decide (c = name)) as [->|Hne].
        -- rewrite lookup_insert_eq in Hm. injection Hm as <-.
           left. exists 0%nat. split; [lia|]. split; [reflexivity|].
           intros [|j] Hj; [lia|]. apply Hnone.
        -- rewrite lookup_insert_ne in Hm by exact Hne.
           right. split; [|exact Hm].
           intros [|j]; [simpl; congruence | apply Hnone].
    + intros [(i & -> & Hi & Hlast)|[Hnone Hm]].
      * destruct i as [|i].
        -- simpl in Hi. injection Hi as ->. right. split.
           ++ intros j. apply (Hlast (S j)). lia.
           ++ rewrite lookup_insert_eq. f_equal. lia.
        -- left. exists i. split; [lia|]. split; [exact Hi|].
           intros j Hj. apply (Hlast (S j)). lia.
      * right. split; [intros j; apply (Hnone (S j))|].
        rewrite lookup_insert_ne; [exact Hm|].
        intros ->. now apply (Hnone 0%nat).
Qed.

(** X15. A column name is looked up at its last position: [colmap] maps
    a name to [i] exactly when the header has the name at position [i] and
    at no later position; with a repeated name the earlier columns are
    shadowed. *)
Theorem colmap_last_wins (header name : string) (i : nat) :
  colmap_of header !! name = Some i <->
  split_on tab header !! i = Some name /\
  forall j, (i < j)%nat -> split_on tab header !! j ≠ Some name.
Proof.
  unfold colmap_of. rewrite build_colmap_spec. split.
  - intros [(i' & -> & Hi & Hlast)|[_ H]]; [auto|].
    rewrite lookup_empty in H. discriminate.
  - intros [Hi Hlast]. left. exists i. auto.
Qed.

Section FilterProperties.

Variable search : string -> bool.

Lemma firstn_pos {A} (n : Z) (x : A) (l : list A) :
  0 < n -> firstn (Z.to_nat n) (x :: l) = x :: firstn (Z.to_nat (n - 1)) l.
Proof.
  intros Hn. replace (Z.to_nat n) with (S (Z.to_nat (n - 1))) by lia.
  reflexivity.
Qed.

(** The loop on rows that are all long enough. *)
Lemma filter_loop_spec (colmap : gmap string nat) (lines : list string) :
  (forall line, In line lines ->
     species_vals colmap (split_on tab line) ≠ None) ->
  forall kept n printed,
    filter_loop search colmap lines kept n printed
    = Some ((kept ++ List.filter (row_matches search colmap) lines)%list,
            (printed ++ firstn (Z.to_nat n)
                          (List.filter (row_matches search colmap) lines))%list).
Proof.
  induction lines as [|line rest IH]; intros Hlong kept n printed.
  - simpl. rewrite firstn_nil, !app_nil_r. reflexivity.
  - destruct (species_vals colmap (split_on tab line)) as [vals|] eqn:Ev.
    2:{ exfalso. apply (Hlong line); [now left | exact Ev]. }
    assert (Hm : row_matches search colmap line = existsb search vals)
      by (unfold row_matches; now rewrite Ev).
    cbn [filter_loop List.filter]. rewrite Ev, Hm.
    assert (Hrest : forall l, In l rest ->
              species_vals colmap (split_on tab l) ≠ None)
      by (intros l Hl; apply Hlong; now right).
    destruct (existsb search vals).
    + destruct (0 <? n) eqn:En.
      * apply Z.ltb_lt in En. rewrite (IH Hrest).
        rewrite (firstn_pos n) by exact En.
        rewrite <- !app_assoc. reflexivity.
      * apply Z.ltb_ge in En. rewrite (IH Hrest).
        replace (Z.to_nat n) with 0%nat by lia.
        rewrite <- !app_assoc. reflexivity.
    + apply (IH Hrest).
Qed.

Lemma filter_table_spec_aux (header : string) (body : list string) (n : Z) :
  (forall line, In line body ->
     species_vals (colmap_of header) (split_on tab line) ≠ None) ->
  filter_table search header body n
  = Some (List.filter (row_matches search (colmap_of header)) body,
          firstn (Z.to_nat n)
            (List.filter (row_matches search (colmap_of header)) body)).
Proof.
  intros Hlong. unfold filter_table.
  now rewrite (filter_loop_spec _ _ Hlong).
Qed.

(** X16. When every row is long enough for the species columns, the rows
    kept are the rows with a match in one of these columns, in the order of
    the table, and the preview shows the first [n] of them (none for
    [n <= 0]). *)
Theorem filter_table_spec (header : string) (body : list string) (n : Z) :
  (forall line, In line body ->
     species_vals (colmap_of header) (split_on tab line) ≠ None) ->
  filter_table search header body n
  = Some (List.filter (row_matches search (colmap_of header)) body,
          firstn (Z.to_nat n)
            (List.filter (row_matches search (colmap_of header)) body)).
Proof. apply filter_table_spec_aux. Qed.

Lemma filter_loop_none (colmap : gmap string nat) (lines : list string) :
  forall kept n printed,
    filter_loop search colmap lines kept n printed = None <->
    exists line, In line lines /\
      species_vals colmap (split_on tab line) = None.
Proof.
  induction lines as [|line rest IH]; intros kept n printed.
  - simpl. split; [discriminate | intros (l & [] & _)].
  - cbn [filter_loop].
    destruct (species_vals colmap (split_on tab line)) as [vals|] eqn:Ev.
    + assert (Hiff : (exists l, In l (line :: rest) /\
                        species_vals colmap (split_on tab l) = None) <->
                     (exists l, In l rest /\
                        species_vals colmap (split_on tab l) = None)).
      { split; intros (l & Hl & Hn).
        - destruct Hl as [<-|Hl]; [congruence | eauto].
        - exists l. split; [now right | exact Hn]. }
      rewrite Hiff.
      destruct (existsb search vals); [destruct (0 <? n)|]; apply IH.
    + split; [|reflexivity]. intros _. exists line. split; [now left|exact Ev].
Qed.

Lemma species_vals_none (colmap : gmap string nat) (fields : list string) :
  species_vals colmap fields = None <->
  exists col i, (col = "species_sylph" \/ col = "species_miniphy") /\
    colmap !! col = Some i /\ (length fields <= i)%nat.
Proof.
  unfold species_vals. split.
  - intros H.
    destruct (colmap !! "species_sylph") as [i|] eqn:E1.
    + destruct (fields !! i) as [v|] eqn:F1.
      * destruct (colmap !! "species_miniphy") as [j|] eqn:E2; [|discriminate].
        destruct (fields !! j) as [v'|] eqn:F2; [discriminate|].
        exists "species_miniphy", j. split; [now right|]. split; [exact E2|].
        now apply lookup_ge_None.
      * exists "species_sylph", i. split; [now left|]. split; [exact E1|].
        now apply lookup_ge_None.
    + destruct (colmap !! "species_miniphy") as [j|] eqn:E2; [|discriminate].
      destruct (fields !! j) as [v'|] eqn:F2; [discriminate|].
      exists "species_miniphy", j. split; [now right|]. split; [exact E2|].
      now apply lookup_ge_None.
  - intros (col & i & [->| ->] & Hc & Hl); apply lookup_ge_None in Hl.
    + now rewrite Hc, Hl.
    + rewrite Hc, Hl.
      destruct (colmap !! "species_sylph") as [j|]; [|reflexivity].
      destruct (fields !! j); reflexivity.
Qed.

(** X17. The filtering ends on an [IndexError] exactly when some row has
    too few fields for a species column of the header; rows that matched
    before it are then lost with the rest. *)
Theorem filter_table_index_error (header : string) (body : list string) (n : Z) :
  filter_table search header body n = None <->
  exists line col i, In line body /\
    (col = "species_sylph" \/ col = "species_miniphy") /\
    colmap_of header !! col = Some i /\
    (length (split_on tab line) <= i)%nat.
Proof.
  unfold filter_table. rewrite filter_loop_none. split.
  - intros (line & Hin & Hn). apply species_vals_none in Hn
      as (col & i & Hc & Hm & Hl). exists line, col, i. auto.
  - intros (line & col & i & Hin & Hc & Hm & Hl). exists line.
    split; [exact Hin|]. apply species_vals_none. exists col, i. auto.
Qed.

(** X18. A table without a species column matches nothing: whatever the
    pattern and the rows, no row is kept, nothing is shown, and the
    filtering does not fail. *)
Theorem filter_table_no_species_column
  (header : string) (body : list string) (n : Z) :
  colmap_of header !! "species_sylph" = None ->
  colmap_of header !! "species_miniphy" = None ->
  filter_table search header body n = Some ([], []).
Proof.
  intros H1 H2.
  assert (Hv : forall fields, species_vals (colmap_of header) fields = Some [])
    by (intros fields; unfold species_vals; now rewrite H1, H2).
  rewrite filter_table_spec_aux.
  - assert (Hf : List.filter (row_matches search (colmap_of header)) body = []).
    { induction body as [|l body IH]; [reflexivity|].
      simpl. unfold row_matches at 1. now rewrite Hv. }
    rewrite Hf. now rewrite firstn_nil.
  - intros line _. now rewrite Hv.
Qed.

End FilterProperties.

Lemma string_app_assoc (a b c : string) :
  ((a ++ b) ++ c)%string = (a ++ (b ++ c))%string.
Proof.
  induction a as [|x a IH]; [reflexivity|].
  change (String x ((a ++ b) ++ c) = String x (a ++ (b ++ c)))%string.
  now f_equal.
Qed.

Lemma split_on_append_sep (sep : ascii) (a b : string) :
  has_char sep a = false ->
  split_on sep (a ++ String sep b) = a :: split_on sep b.
Proof.
  induction a as [|c a IH]; intros H.
  - change (split_on sep (String sep b) = EmptyString :: split_on sep b).
    cbn [split_on]. now rewrite Ascii.eqb_refl.
  - simpl in H. apply orb_false_elim in H as [Hc Ha].
    change (split_on sep (String c (a ++ String sep b))
            = String c a :: split_on sep b).
    cbn [split_on]. rewrite Hc, (IH Ha). reflexivity.
Qed.

Lemma split_join_lines (rest : list string) :
  forall l, has_char newline l = false ->
    (forall x, In x rest -> has_char newline x = false) ->
    split_on newline (join_lines (l :: rest) ++ String newline EmptyString)
    = (l :: rest ++ [EmptyString])%list.
Proof.
  induction rest as [|l2 rest IH]; intros l Hl Hrest.
  - cbn [join_lines]. now rewrite split_on_append_sep.
  - change (join_lines (l :: l2 :: rest))
      with (l ++ String newline (join_lines (l2 :: rest)))%string.
    rewrite string_app_assoc.
    change (String newline (join_lines (l2 :: rest)) ++ String newline "")%string
      with (String newline (join_lines (l2 :: rest) ++ String newline "")).
    rewrite split_on_append_sep by exact Hl.
    rewrite IH; [reflexivity | apply Hrest; now left |].
    intros x Hx. apply Hrest. now right.
Qed.

(** X19. The text saved by [--save-filtered] splits back, at its line
    feeds, into the header, the kept rows in their order, and one empty
    piece after the final line feed, when no line holds a line feed. *)
Theorem filtered_body_round_trip (header : string) (kept : list string) :
  has_char newline header = false ->
  (forall l, In l kept -> has_char newline l = false) ->
  split_on newline (filtered_body header kept)
  = (header :: kept ++ [EmptyString])%list.
Proof. intros Hh Hk. unfold filtered_body. now apply split_join_lines. Qed.

(** ** The further properties on the sample inputs *)

Lemma extract_selected_missing_witness :
  let w := sample_world_archive in
  heap (snd (extract_selected two_members ["t.tar"] 0 ["out"] 1 w)) !! 1%nat
  = Some (({[ "top/a.fa"; "top/zzz.fa" ]} : gset string)
          ∖ regular_names [Member "top/a.fa" RegularFile "AAA";
                           Member "top/b.fa" RegularFile "BBB"]).
Proof.
  intros w.
  apply (extract_selected_missing two_members ["t.tar"] 0%nat ["out"] 1 w
           (snd (extract_selected two_members ["t.tar"] 0 ["out"] 1 w))
           _ 1%nat "TAR"); vm_compute; reflexivity.
Defined.

Lemma extract_selected_found_on_disk_witness :
  let w := sample_world_archive in
  exists d,
    files (snd (extract_selected two_members ["t.tar"] 0 ["out"] 1 w))
      !! output_path ["out"] 1 "top/a.fa" = Some (File d).
Proof.
  intros w.
  apply (extract_selected_found_on_disk two_members ["t.tar"] 0%nat ["out"] 1 w
           (snd (extract_selected two_members ["t.tar"] 0 ["out"] 1 w))
           {[ "top/a.fa"; "top/zzz.fa" ]} {[ "top/zzz.fa" ]} 1%nat).
  - vm_compute. reflexivity.
  - vm_compute. reflexivity.
  - vm_compute. reflexivity.
  - apply elem_of_union_l. now apply elem_of_singleton.
  - intros H. apply elem_of_singleton in H. discriminate.
Defined.

Lemma extract_selected_writes_only_outputs_witness :
  let w := sample_world_archive in
  files w !! ["out"; "a.fa"] = Some (File "AAA") \/
  exists n, n ∈ ({[ "top/a.fa"; "top/zzz.fa" ]} : gset string) /\
            ["out"; "a.fa"] = output_path ["out"] 1 n.
Proof.
  intros w.
  apply (extract_selected_writes_only_outputs two_members ["t.tar"] 0%nat
           ["out"] 1 w
           (snd (extract_selected two_members ["t.tar"] 0 ["out"] 1 w))
           (fst (extract_selected two_members ["t.tar"] 0 ["out"] 1 w))
           {[ "top/a.fa"; "top/zzz.fa" ]});
    vm_compute; reflexivity.
Defined.

Lemma extract_selected_offline_witness :
  let w := sample_world_archive in
  trace (snd (extract_selected two_members ["t.tar"] 0 ["out"] 1 w)) = trace w /\
  net (snd (extract_selected two_members ["t.tar"] 0 ["out"] 1 w)) = net w.
Proof.
  intros w.
  apply (extract_selected_offline two_members ["t.tar"] 0%nat ["out"] 1 w
           (snd (extract_selected two_members ["t.tar"] 0 ["out"] 1 w))
           (fst (extract_selected two_members ["t.tar"] 0 ["out"] 1 w))
           {[ "top/a.fa"; "top/zzz.fa" ]});
    vm_compute; reflexivity.
Defined.

Lemma download_first_answer_witness :
  let out := ["out"; "_tars"; "B.tar.xz"] in
  download_with_retry sum_digest "uB" out None 5 sample_world_tars
  = (Ok "downloaded",
     World (<[out := File "TAR"]> (delete (part_path out)
                                     (files sample_world_tars)))
           (<["uB" := []]> (net sample_world_tars)) (heap sample_world_tars)
           (trace sample_world_tars ++ [Request "uB"])%list).
Proof.
  intros out.
  apply (download_first_answer sum_digest "uB" out None 5 "TAR" []
           sample_world_tars).
  - lia.
  - reflexivity.
  - discriminate.
  - vm_compute. reflexivity.
  - vm_compute. discriminate.
  - vm_compute. discriminate.
  - vm_compute. reflexivity.
Defined.

Lemma download_mismatch_leaves_file_witness :
  let out := ["out"; "_tars"; "B.tar.xz"] in
  let run := download_with_retry sum_digest "uB" out (Some "00") 1
               sample_world_tars in
  exists e d, Some "00" = Some e /\ e ≠ "" /\
    resolve (files (snd run)) out = Some (File d) /\
    eq_nocase (hexdigest sum_digest d) e = false.
Proof.
  intros out run.
  apply (download_mismatch_leaves_file sum_digest "uB" out (Some "00") 1
           sample_world_tars (snd run)).
  vm_compute. reflexivity.
Defined.

Lemma download_no_answer_witness :
  let out := ["out"; "_tars"; "A.tar.xz"] in
  exists w' evs,
    download_with_retry sum_digest "uA" out None 3 sample_world_tars
    = (Raise URLError, w') /\
    files w' = files sample_world_tars /\
    trace w' = (trace sample_world_tars ++ evs)%list /\
    requests evs = Z.to_nat 3 /\
    sleeps evs = backoff 0 (Z.to_nat 3 - 1).
Proof.
  intros out.
  apply (download_no_answer sum_digest "uA" out None 3 sample_world_tars).
  - lia.
  - vm_compute. reflexivity.
  - left. reflexivity.
  - vm_compute. exact I.
Defined.

Lemma download_onto_directory_witness :
  download_with_retry sum_digest "uB" ["out"; "_tars"] (Some "e7") 3
    sample_world_tars
  = (Raise IsADirectoryError,
     World (files sample_world_tars) (net sample_world_tars)
           (heap sample_world_tars)
           (trace sample_world_tars
            ++ List.map Sleep (backoff 0 (Z.to_nat 3 - 1)))%list).
Proof.
  apply (download_onto_directory sum_digest "uB" ["out"; "_tars"] (Some "e7") 3
           sample_world_tars).
  - lia.
  - reflexivity.
  - vm_compute. reflexivity.
Defined.

Lemma filter_table_spec_witness :
  filter_table sample_search sample_header sample_body 1
  = Some (List.filter (row_matches sample_search (colmap_of sample_header))
            sample_body,
          firstn (Z.to_nat 1)
            (List.filter (row_matches sample_search (colmap_of sample_header))
               sample_body)).
Proof.
  apply (filter_table_spec sample_search sample_header sample_body 1).
  intros line [<-|[<-|[<-|[]]]]; vm_compute; discriminate.
Defined.

Lemma filter_table_no_species_column_witness :
  filter_table sample_search sample_header_plain sample_body 5 = Some ([], []).
Proof.
  apply (filter_table_no_species_column sample_search sample_header_plain
           sample_body 5); vm_compute; reflexivity.
Defined.

Lemma filtered_body_round_trip_witness :
  split_on newline (filtered_body sample_header sample_body)
  = (sample_header :: sample_body ++ [EmptyString])%list.
Proof.
  apply (filtered_body_round_trip sample_header sample_body).
  - vm_compute. reflexivity.
  - intros l [<-|[<-|[<-|[]]]]; vm_compute; reflexivity.
Defined.
